(** * silverbullet-grep: a shallow embedding of [grep.ts]

    The plug shells out to [git grep], re-scans every reported line with a
    JavaScript regular expression to find each occurrence and its column,
    drops ignored folders and the result pages, ranks the documents by match
    count and renders a markdown report.

    JavaScript strings are modelled as what they are, sequences of UTF-16
    code units; offsets, [length], [substring] and [slice] count code units.
    The parts of the JavaScript runtime that are not plain list processing
    (Unicode lower-casing, the regular expression engine and the conversions
    between strings and doubles) are taken as an interface, [JSRuntime]; the
    host's syscalls (shell, editor, datastore, space configuration) are
    explicit inputs and explicit state. *)

From Stdlib Require Import Ascii String.
From Stdlib Require Import List NArith ZArith Arith Lia Bool.
From Stdlib Require Import Permutation Sorted.
Import ListNotations.

Set Implicit Arguments.

(** ** JavaScript strings *)

Module JS.

Definition jsstring := list N.

(** An ASCII literal as code units. *)
Definition lit (s : string) : jsstring :=
  map N_of_ascii (list_ascii_of_string s).

Definition nl : jsstring := [10%N].

(** [a === b] on strings. *)
Fixpoint eqb (a b : jsstring) : bool :=
  match a, b with
  | [], [] => true
  | x :: a', y :: b' => N.eqb x y && eqb a' b'
  | _, _ => false
  end.

(** [s.startsWith(p)] *)
Fixpoint startsWith (s p : jsstring) {struct p} : bool :=
  match p, s with
  | [], _ => true
  | y :: p', x :: s' => N.eqb x y && startsWith s' p'
  | _ :: _, [] => false
  end.

(** [s.endsWith(p)] *)
Definition endsWith (s p : jsstring) : bool :=
  Nat.leb (length p) (length s) && eqb (skipn (length s - length p) s) p.

(** [s.substring(a, b)]: both indices clamped to the length, swapped when
    [a > b]. *)
Definition substring (s : jsstring) (a b : nat) : jsstring :=
  let lo := Nat.min (Nat.min a b) (length s) in
  let hi := Nat.min (Nat.max a b) (length s) in
  firstn (hi - lo) (skipn lo s).

(** [s.substring(a)] *)
Definition substringFrom (s : jsstring) (a : nat) : jsstring := skipn a s.

(** [s.slice(0, -n)] for a positive [n]: all but the last [n] code units. *)
Definition sliceDropLast (s : jsstring) (n : nat) : jsstring :=
  firstn (length s - n) s.

(** [s.slice(0, e)] for a non-negative [e]. *)
Definition sliceTo (s : jsstring) (e : nat) : jsstring := firstn e s.

(** [s.lastIndexOf(c)] for a one-unit needle: the last index holding [c],
    or -1. *)
Fixpoint lastIndexOf_from (i : Z) (s : jsstring) (c : N) (found : Z) : Z :=
  match s with
  | [] => found
  | x :: s' =>
      lastIndexOf_from (i + 1) s' c (if N.eqb x c then i else found)
  end.

Definition lastIndexOf (s : jsstring) (c : N) : Z :=
  lastIndexOf_from 0 s c (-1).

(** [s.replaceAll(a, b)] for one-unit [a] and [b]. *)
Definition replaceAll1 (s : jsstring) (a b : N) : jsstring :=
  map (fun x => if N.eqb x a then b else x) s.

(** [s.split(sep)] for a non-empty separator: [skip] counts the units of
    the separator just recognised that are still to be passed over, [cur]
    is the current piece, reversed. *)
Fixpoint split_go (sep : jsstring) (skip : nat) (cur s : jsstring)
  : list jsstring :=
  match s with
  | [] => [rev cur]
  | c :: s' =>
      match skip with
      | S k => split_go sep k cur s'
      | O =>
          if startsWith s sep
          then rev cur :: split_go sep (length sep - 1) [] s'
          else split_go sep 0 (c :: cur) s'
      end
  end.

Definition split (s sep : jsstring) : list jsstring := split_go sep 0 [] s.

(** [arr.join(sep)] *)
Fixpoint join (sep : jsstring) (l : list jsstring) : jsstring :=
  match l with
  | [] => []
  | [x] => x
  | x :: l' => x ++ sep ++ join sep l'
  end.

(** [arr[i]] on an array of strings whose index is in range; the empty
    string stands for [undefined] out of range (never read there). *)
Definition at_ (l : list jsstring) (i : nat) : jsstring := nth i l [].

Definition isDigit (c : N) : bool := N.leb 48 c && N.leb c 57.

(** [n.toString()] for a natural number below 2^53, where a JavaScript
    number is the integer itself: its decimal digits.  (Used for columns and
    counts, which are bounded by the length of a string or of an array.) *)
Fixpoint digits_go (fuel n : nat) (acc : jsstring) : jsstring :=
  match fuel with
  | O => acc
  | S fuel' =>
      let acc' := (48 + N.of_nat (n mod 10))%N :: acc in
      if Nat.ltb n 10 then acc' else digits_go fuel' (n / 10) acc'
  end.

Definition toString (n : nat) : jsstring := digits_go (S n) n [].

(** The integer that the longest prefix of decimal digits of [s] denotes:
    what [parseInt(s)] rounds to a JavaScript number. *)
Fixpoint parseInt_go (acc : nat) (s : jsstring) : nat :=
  match s with
  | c :: s' =>
      if isDigit c then parseInt_go (10 * acc + N.to_nat (c - 48)) s'
      else acc
  | [] => acc
  end.

Definition parseInt (s : jsstring) : nat := parseInt_go 0 s.

(** Truthiness of a possibly undefined string: defined and non-empty. *)
Definition truthy (o : option jsstring) : bool :=
  match o with
  | Some (_ :: _) => true
  | _ => false
  end.

End JS.

Import JS.

(** ** The JavaScript runtime

    [toLowerCase] is [String.prototype.toLowerCase].  A regular expression
    is built by [RegExp_new source flags] ([None] when the constructor
    throws a [SyntaxError]) and is used through its matcher, ECMAScript's
    [[RegExpMatcher]]: [RegExp_matcher r s i] tries a match of [r] in [s]
    that starts at index [i] and gives the index where it ends.  A match
    ends at or after its start and inside the string. *)

(** The JavaScript numbers [parseInt] can give: an integer-valued double
    (with -0 read as 0), an infinity, or NaN. *)
Inductive JSNumber : Type :=
| Finite (value : Z)
| Infinity
| MinusInfinity
| NaN.

(** [Number_parseInt] is [parseInt] (the same function as
    [Number.parseInt]) and [Number_toString] is [Number.prototype.toString];
    both work on doubles.  Below 2^53 a double is the integer itself:
    [parseInt] of a string of digits is the integer they denote, and
    [toString] writes its decimal digits.  From 2^53 on, [parseInt] rounds
    and [toString] writes the shortest digits that read back as the same
    double, which is left to the runtime. *)
Class JSRuntime := {
  RegExp : Type;
  toLowerCase : jsstring -> jsstring;
  RegExp_new : jsstring -> jsstring -> option RegExp;
  RegExp_matcher : RegExp -> jsstring -> nat -> option nat;
  RegExp_matcher_end :
    forall r s i e, RegExp_matcher r s i = Some e -> i <= e <= length s;
  Number_parseInt : jsstring -> JSNumber;
  Number_toString : JSNumber -> jsstring;
  Number_parseInt_safe :
    forall s,
      s <> [] ->
      Forall (fun c => isDigit c = true) s ->
      (Z.of_nat (parseInt s) < 2 ^ 53)%Z ->
      Number_parseInt s = Finite (Z.of_nat (parseInt s));
  Number_toString_safe :
    forall n,
      (Z.of_nat n < 2 ^ 53)%Z ->
      Number_toString (Finite (Z.of_nat n)) = toString n
}.

(** How a call completes: it returns a value or throws. *)
Inductive Completion (A : Type) : Type :=
| Return (a : A)
| Throw.

Arguments Return {A} a.
Arguments Throw {A}.

(** ** The host's syscalls *)

(** [GrepConfig], as the interface declares it: every key may be absent. *)
Inductive Surround : Type :=
| SurroundFalse
| SurroundObj (left right : option jsstring).

Record GrepConfig : Type := {
  smartCase : option bool;
  surround : option Surround;
  saveResults : option bool;
  ignoreFolders : option (list jsstring)
}.

(** What [await shell.run(cmd, args)] does: it throws, resolves to a falsy
    value, or resolves to a result with a [stdout]. *)
Inductive ShellResult : Type :=
| ShellThrows
| ShellFalsy
| ShellOk (stdout : jsstring).

(** [editor.flashNotification(message, type)]; [type] is optional. *)
Record Notification : Type := {
  message : jsstring;
  type : option jsstring
}.

(** The arguments of one search, [{ pattern, literal, folder }]. *)
Record GrepArgs : Type := {
  pattern : jsstring;
  literal : bool;
  folder : jsstring
}.

(** The read-only surroundings of one search. *)
Record Host : Type := {
  getSpaceConfig : GrepConfig;
  shell_run : jsstring -> list jsstring -> ShellResult;
  pageText : jsstring -> jsstring
}.

(** What a run of [shell.run] comes to in full: it throws (the command
    cannot be run), resolves to a falsy value, or resolves to the output and
    the exit code of the command, whatever that code is.  [grep] and
    [showVersion] read [stdout] and nothing else of it: [resultOf] is what
    they see. *)
Record ShellOutput : Type := {
  stdout : jsstring;
  stderr : jsstring;
  code : Z
}.

Inductive ShellRun : Type :=
| RunThrows
| RunFalsy
| RunResolves (result : ShellOutput).

Definition resultOf (run : ShellRun) : ShellResult :=
  match run with
  | RunThrows => ShellThrows
  | RunFalsy => ShellFalsy
  | RunResolves result => ShellOk (stdout result)
  end.

Definition hostRunning (config : GrepConfig)
  (run : jsstring -> list jsstring -> ShellRun)
  (pages : jsstring -> jsstring) : Host :=
  {| getSpaceConfig := config;
     shell_run := fun cmd args => resultOf (run cmd args);
     pageText := pages |}.

(** What the commands change: the datastore entry [["grep", "arguments"]],
    the page the editor shows and its text, and the notifications flashed
    so far (oldest first). *)
Record World : Type := {
  stored : option GrepArgs;
  currentPage : jsstring;
  editorText : jsstring;
  flashed : list Notification
}.

Record FileMeta : Type := {
  name : jsstring;
  contentType : jsstring;
  size : Z;
  created : Z;
  lastModified : Z;
  perm : jsstring
}.

Record FileData : Type := {
  data : list N;
  meta : FileMeta
}.

(** ** Constants *)

Definition resultPageSaved : jsstring := lit "GREP RESULT".

(** ["GREP RESULT 🔍"]: U+1F50D is the surrogate pair D83D DD0D. *)
Definition resultPageVirtual : jsstring :=
  lit "GREP RESULT " ++ [0xD83D%N; 0xDD0D%N].

Definition dq : jsstring := [34%N].
Definition slash : N := 47%N.
Definition backslash : N := 92%N.

(** ** Paths *)

Definition normalizePath (path : jsstring) : jsstring :=
  let forward := replaceAll1 path backslash slash in
  if startsWith forward (lit "./") then substringFrom forward 2
  else forward.

Definition shouldIgnoreFolder (folderPath : jsstring) (config : GrepConfig)
  : bool :=
  match ignoreFolders config with
  | None => false
  | Some folders =>
      let normalizedPath := normalizePath folderPath in
      existsb
        (fun ignorePattern =>
           let pattern := normalizePath ignorePattern in
           if endsWith pattern (lit "/*")
           then
             let basePattern := sliceDropLast pattern 2 in
             startsWith normalizedPath basePattern
           else eqb normalizedPath pattern)
        folders
  end.

(** [escapeRegExp]: a backslash before each of [. * + ? ^ $ { } ( ) | [ ] \]. *)
Definition isRegExpSpecial (c : N) : bool :=
  existsb (N.eqb c) (lit ".*+?^${}()|[]" ++ [backslash]).

Definition escapeRegExp (text : jsstring) : jsstring :=
  flat_map (fun c => if isRegExpSpecial c then [backslash; c] else [c]) text.

(** ** Stable sorting

    [Array.prototype.sort(cmp)] is a stable sort.  It is modelled by the
    stable insertion sort: the elements are taken from the last to the
    first, and each is put in front of the first element that [cmp] does
    not order before it, so that it stays in front of its equals. *)

Section ArraySort.
Variable A : Type.
Variable cmp : A -> A -> Z.

Fixpoint sort_insert (x : A) (l : list A) : list A :=
  match l with
  | [] => [x]
  | y :: l' =>
      if (cmp x y <=? 0)%Z then x :: y :: l' else y :: sort_insert x l'
  end.

Definition Array_sort (l : list A) : list A := fold_right sort_insert [] l.

End ArraySort.

(** ** Results *)

Record Match : Type := {
  lineNum : JSNumber;
  columnNum : nat;
  context : jsstring
}.

Record FileMatch : Type := {
  page : jsstring;
  matches : list Match
}.

(** ** Configuration of one search (the head of [grep]) *)

Definition smartCaseOf (config : GrepConfig) : bool :=
  match smartCase config with
  | Some false => false
  | _ => true
  end.

Definition surroundLeftOf (config : GrepConfig) : jsstring :=
  match surround config with
  | None => lit ">>>"
  | Some SurroundFalse => []
  | Some (SurroundObj l _) =>
      match l with
      | Some (c :: l') => c :: l'
      | _ => lit ">>>"
      end
  end.

Definition surroundRightOf (config : GrepConfig) : jsstring :=
  match surround config with
  | None => lit "<<<"
  | Some SurroundFalse => []
  | Some (SurroundObj _ r) =>
      match r with
      | Some (c :: r') => c :: r'
      | _ => lit "<<<"
      end
  end.

(** The line test [/^(\d)+:(\d)+:/]. *)
Fixpoint dropDigits (s : jsstring) : jsstring :=
  match s with
  | c :: s' => if isDigit c then dropDigits s' else s
  | [] => []
  end.

Definition digitsThenColon (s : jsstring) : option jsstring :=
  match s with
  | c :: s' =>
      if isDigit c
      then match dropDigits s' with
           | d :: rest => if N.eqb d 58 then Some rest else None
           | [] => None
           end
      else None
  | [] => None
  end.

Definition locationMatch (line : jsstring) : bool :=
  match digitsThenColon line with
  | Some rest =>
      match digitsThenColon rest with
      | Some _ => true
      | None => false
      end
  | None => false
  end.

(** The comparator of the ranking: [-(a.matches.length - b.matches.length)]. *)
Definition byMatchCount (a b : FileMatch) : Z :=
  (- (Z.of_nat (length (matches a)) - Z.of_nat (length (matches b))))%Z.

(** ** Rendering *)

Section Rendering.
Context {RT : JSRuntime}.

Definition renderMatch (pg : jsstring) (m : Match) : jsstring :=
  lit "* [[" ++ pg ++ lit "@L" ++ Number_toString (lineNum m) ++ lit "C"
    ++ toString (columnNum m) ++ lit "|L" ++ Number_toString (lineNum m)
    ++ lit "C" ++ toString (columnNum m) ++ lit "]]: " ++ context m.

Definition renderFile (fm : FileMatch) : jsstring :=
  nl ++ lit "## [[" ++ page fm ++ lit "]] ("
    ++ toString (length (matches fm)) ++ lit " "
    ++ (if Nat.ltb 1 (length (matches fm)) then lit "matches" else lit "match")
    ++ lit ")" ++ nl
    ++ join nl (map (renderMatch (page fm)) (matches fm)).

Definition renderReport (a : GrepArgs) (fileMatches : list FileMatch)
  : jsstring :=
  lit "Search results for "
    ++ (if literal a then lit "text" else lit "pattern")
    ++ lit " **`" ++ pattern a ++ lit "`**"
    ++ (if negb (eqb (folder a) (lit "."))
        then nl ++ lit "**found inside folder:** " ++ folder a ++ nl
        else [])
    ++ nl
    ++ join nl (map renderFile fileMatches)
    ++ nl ++ lit "    ".

End Rendering.

Definition noResultsNotification (a : GrepArgs) : Notification :=
  {| message :=
       (if literal a then lit "Text" else lit "Pattern")
         ++ lit " " ++ dq ++ pattern a ++ dq ++ lit " produced no results";
     type := None |}.

Definition gitErrorNotification : Notification :=
  {| message := lit "Error running 'git' command, make sure Git is in PATH";
     type := Some (lit "error") |}.

(** ** The search *)

Section Grep.
Context {RT : JSRuntime}.

(** [RegExpBuiltinExec] of a global expression: from [lastIndex] on, the
    first index at which the matcher succeeds, up to the end of the string;
    [k] is the number of indices still to try. *)
Fixpoint exec_scan (r : RegExp) (s : jsstring) (k i : nat)
  : option (nat * nat) :=
  match k with
  | O => None
  | S k' =>
      match RegExp_matcher r s i with
      | Some e => Some (i, e)
      | None => exec_scan r s k' (S i)
      end
  end.

Definition RegExpBuiltinExec (r : RegExp) (s : jsstring) (lastIndex : nat)
  : option (nat * nat) :=
  exec_scan r s (S (length s) - lastIndex) lastIndex.

(** [s.matchAll(r)] for a global [r]: the iterator runs [RegExpBuiltinExec]
    from the end of the match before, one further after an empty match.
    Each result is (index, index + length of the matched text). *)
Fixpoint matchAll_loop (fuel : nat) (r : RegExp) (s : jsstring)
  (lastIndex : nat) : list (nat * nat) :=
  match fuel with
  | O => []
  | S fuel' =>
      match RegExpBuiltinExec r s lastIndex with
      | None => []
      | Some (index, e) =>
          (index, e)
            :: matchAll_loop fuel' r s (if Nat.eqb e index then S e else e)
      end
  end.

Definition matchAll (s : jsstring) (r : RegExp) : list (nat * nat) :=
  matchAll_loop (length s + 2) r s 0.

(** The occurrences a scan of [s] from [lastIndex] is to report: the
    leftmost index at or after [lastIndex] where the matcher succeeds, then
    the occurrences found from where that match ends (one further when it
    is empty), until the matcher succeeds nowhere up to the end. *)
Inductive Occurrences (r : RegExp) (s : jsstring)
  : nat -> list (nat * nat) -> Prop :=
| Occ_done (lastIndex : nat) :
    (forall j, lastIndex <= j <= length s -> RegExp_matcher r s j = None) ->
    Occurrences r s lastIndex []
| Occ_next (lastIndex index e : nat) (rest : list (nat * nat)) :
    lastIndex <= index ->
    RegExp_matcher r s index = Some e ->
    (forall j, lastIndex <= j < index -> RegExp_matcher r s j = None) ->
    Occurrences r s (if Nat.eqb e index then S e else e) rest ->
    Occurrences r s lastIndex ((index, e) :: rest).

Definition caseSensitive (config : GrepConfig) (pat : jsstring) : bool :=
  if smartCaseOf config then negb (eqb (toLowerCase pat) pat) else true.

Definition gitArgs (config : GrepConfig) (a : GrepArgs) : list jsstring :=
  [ lit "-c"; lit "core.quotePath=false"; lit "grep"; lit "--heading";
    lit "--break"; lit "--line-number"; lit "--column"; lit "--no-color";
    lit "--no-index" ]
    ++ (if caseSensitive config (pattern a) then [] else [lit "--ignore-case"])
    ++ [ if literal a then lit "--fixed-strings" else lit "--extended-regexp";
         pattern a;
         lit "--";
         folder a ++ (if endsWith (folder a) (lit "/") then [] else lit "/")
           ++ lit "*.md" ].

Definition innerRegexSource (a : GrepArgs) : jsstring :=
  if literal a then escapeRegExp (pattern a) else pattern a.

Definition innerRegexFlags (config : GrepConfig) (a : GrepArgs) : jsstring :=
  if caseSensitive config (pattern a) then lit "g" else lit "gi".

(** The body of the loop over [innerMatches]: one [Match] for an occurrence
    that starts at [index] and ends at [e]. *)
Definition surrounded (config : GrepConfig) (ctx : jsstring)
  (index e : nat) : jsstring :=
  join []
    [ substring ctx 0 index;
      surroundLeftOf config;
      substring ctx index e;
      surroundRightOf config;
      substringFrom ctx e ].

Definition refineContext (config : GrepConfig) (innerRegex : RegExp)
  (ln : JSNumber) (ctx : jsstring) : list Match :=
  map (fun o : nat * nat =>
         {| lineNum := ln;
            columnNum := fst o + 1;
            context := surrounded config ctx (fst o) (snd o) |})
      (matchAll ctx innerRegex).

(** One line of a file's output: its line number, a double, and its
    context text, found by skipping as many code units as the line number
    takes when written back, the column as it stands, and two colons. *)
Definition lineNumOf (line : jsstring) : JSNumber :=
  Number_parseInt (at_ (split line (lit ":")) 0).

Definition contextOf (line : jsstring) : jsstring :=
  substringFrom line
    (length (Number_toString (lineNumOf line))
       + length (at_ (split line (lit ":")) 1) + 2).

Definition refineLine (config : GrepConfig) (innerRegex : RegExp)
  (line : jsstring) : list Match :=
  if locationMatch line
  then refineContext config innerRegex (lineNumOf line) (contextOf line)
  else [].

(** The page a file output is about, when it is kept: [None] is one of the
    [continue]s of the loop over [fileOutputs]. *)
Definition folderPathOf (pg : jsstring) : jsstring :=
  substring pg 0 (Z.to_nat (lastIndexOf pg slash + 1)).

Definition acceptedPage (config : GrepConfig) (lines : list jsstring)
  : option jsstring :=
  if negb (endsWith (at_ lines 0) (lit ".md")) then None
  else
    let pg := normalizePath (sliceDropLast (at_ lines 0) 3) in
    if shouldIgnoreFolder (folderPathOf pg) config then None
    else if eqb pg resultPageSaved then None
    else if eqb pg resultPageVirtual then None
    else Some pg.

Definition fileMatchOf (config : GrepConfig) (innerRegex : RegExp)
  (fileOutput : jsstring) : option FileMatch :=
  let lines := split fileOutput nl in
  match acceptedPage config lines with
  | None => None
  | Some pg =>
      Some {| page := pg;
              matches := flat_map (refineLine config innerRegex) (tl lines) |}
  end.

Fixpoint collectFileMatches (config : GrepConfig) (innerRegex : RegExp)
  (fileOutputs : list jsstring) : list FileMatch :=
  match fileOutputs with
  | [] => []
  | fileOutput :: rest =>
      match fileMatchOf config innerRegex fileOutput with
      | Some fm => fm :: collectFileMatches config innerRegex rest
      | None => collectFileMatches config innerRegex rest
      end
  end.

(** [fileMatches] as pushed, in the order of the tool's output. *)
Definition discovered (config : GrepConfig) (innerRegex : RegExp)
  (output : jsstring) : list FileMatch :=
  collectFileMatches config innerRegex (split output (nl ++ nl)).

(** [fileMatches] after [fileMatches.sort(...)]: the documents of the
    report, in the order they are rendered. *)
Definition ranked (config : GrepConfig) (innerRegex : RegExp)
  (output : jsstring) : list FileMatch :=
  Array_sort byMatchCount (discovered config innerRegex output).

(** [grep(pattern, literal, folder)] up to and including the sort: the
    completion ([Return None] is a [return;] with no text, [Return (Some
    fileMatches)] reaches the rendering) and the notifications flashed on
    the way. *)
Definition grepFileMatches (host : Host) (a : GrepArgs)
  : Completion (option (list FileMatch)) * list Notification :=
  let config := getSpaceConfig host in
  match shell_run host (lit "git") (gitArgs config a) with
  | ShellThrows => (Return None, [gitErrorNotification])
  | ShellFalsy => (Return None, [noResultsNotification a])
  | ShellOk [] => (Return None, [noResultsNotification a])
  | ShellOk output =>
      match RegExp_new (innerRegexSource a) (innerRegexFlags config a) with
      | None => (Throw, [])
      | Some innerRegex => (Return (Some (ranked config innerRegex output)), [])
      end
  end.

(** [grep(pattern, literal, folder)]: the text it returns is the rendering
    of the sorted [fileMatches]. *)
Definition grep (host : Host) (a : GrepArgs)
  : Completion (option jsstring) * list Notification :=
  match grepFileMatches host a with
  | (Return (Some fileMatches), notes) =>
      (Return (Some (renderReport a fileMatches)), notes)
  | (Return None, notes) => (Return None, notes)
  | (Throw, notes) => (Throw, notes)
  end.

End Grep.

(** ** [TextEncoder.encode]: UTF-8 of the string's code points, a lone
    surrogate encoded as U+FFFD. *)

Definition isHighSurrogate (c : N) : bool :=
  N.leb 0xD800 c && N.leb c 0xDBFF.

Definition isLowSurrogate (c : N) : bool :=
  N.leb 0xDC00 c && N.leb c 0xDFFF.

Fixpoint codePoints (s : jsstring) : list N :=
  match s with
  | [] => []
  | c :: s' =>
      if isHighSurrogate c
      then match s' with
           | d :: s'' =>
               if isLowSurrogate d
               then (0x10000 + (c - 0xD800) * 0x400 + (d - 0xDC00))%N
                      :: codePoints s''
               else 0xFFFD%N :: codePoints s'
           | [] => [0xFFFD%N]
           end
      else if isLowSurrogate c then 0xFFFD%N :: codePoints s'
      else c :: codePoints s'
  end.

Definition utf8 (cp : N) : list N :=
  if N.ltb cp 0x80 then [cp]
  else if N.ltb cp 0x800
  then [0xC0 + cp / 0x40; 0x80 + cp mod 0x40]%N
  else if N.ltb cp 0x10000
  then [0xE0 + cp / 0x1000; 0x80 + (cp / 0x40) mod 0x40; 0x80 + cp mod 0x40]%N
  else [0xF0 + cp / 0x40000; 0x80 + (cp / 0x1000) mod 0x40;
        0x80 + (cp / 0x40) mod 0x40; 0x80 + cp mod 0x40]%N.

Definition TextEncoder_encode (s : jsstring) : list N :=
  flat_map utf8 (codePoints s).

(** ** Commands *)

Definition flash (notes : list Notification) (w : World) : World :=
  {| stored := stored w;
     currentPage := currentPage w;
     editorText := editorText w;
     flashed := flashed w ++ notes |}.

(** [editor.navigate({ page })] *)
Definition navigate (host : Host) (pg : jsstring) (w : World) : World :=
  {| stored := stored w;
     currentPage := pg;
     editorText := pageText host pg;
     flashed := flashed w |}.

(** [editor.replaceRange(from, to, text)] *)
Definition replaceRange (from to : nat) (txt : jsstring) (w : World) : World :=
  {| stored := stored w;
     currentPage := currentPage w;
     editorText := firstn from (editorText w) ++ txt ++ skipn to (editorText w);
     flashed := flashed w |}.

(** [datastore.set(["grep", "arguments"], args)] *)
Definition datastore_set (a : GrepArgs) (w : World) : World :=
  {| stored := Some a;
     currentPage := currentPage w;
     editorText := editorText w;
     flashed := flashed w |}.

Definition saveResultsOf (config : GrepConfig) : bool :=
  match saveResults config with
  | Some true => true
  | _ => false
  end.

Definition noResultsText : jsstring := lit "Did not produce any results".

Definition couldNotCallText : jsstring :=
  lit "Could not call grep implementation, make sure to only open "
    ++ dq ++ resultPageVirtual ++ dq ++ lit " using Grep Plug commands".

Definition fileMetaOf (nm : jsstring) (sz : Z) : FileMeta :=
  {| name := nm;
     contentType := lit "text/markdown";
     size := sz;
     created := 0;
     lastModified := 0;
     perm := lit "ro" |}.

Definition getFileMetaGrepResult (nm : jsstring) : FileMeta :=
  fileMetaOf nm (-1).

Definition writeFileGrepResult (nm : jsstring) : FileMeta :=
  getFileMetaGrepResult nm.

(** The folder a page is nested in, with its trailing slash, or ["."]. *)
Definition folderOfPage (pageName : jsstring) : jsstring :=
  let folderPath :=
    sliceTo pageName (Z.to_nat (lastIndexOf pageName slash + 1)) in
  if negb (eqb folderPath []) then folderPath else lit ".".

Section Commands.
Context {RT : JSRuntime}.

Definition openGrep (host : Host) (a : GrepArgs) (w : World)
  : Completion unit * World :=
  if saveResultsOf (getSpaceConfig host)
  then
    let (c, notes) := grep host a in
    let w1 := flash notes w in
    match c with
    | Throw => (Throw, w1)
    | Return text =>
        match text with
        | Some (u :: t) =>
            let w2 := navigate host resultPageSaved w1 in
            let textLength := length (editorText w2) in
            (Return tt,
             replaceRange 0 textLength (lit "#meta" ++ nl ++ nl ++ u :: t) w2)
        | _ => (Return tt, w1)
        end
    end
  else
    (Return tt, navigate host resultPageVirtual (datastore_set a w)).

(** The text [readFileGrepResult] serves.  With nothing stored, reading
    [args.pattern] throws inside the [try]. *)
Definition grepResultText (host : Host) (w : World)
  : jsstring * list Notification :=
  match stored w with
  | None => (couldNotCallText, [])
  | Some args =>
      match grep host args with
      | (Throw, notes) => (couldNotCallText, notes)
      | (Return (Some (u :: t)), notes) => (u :: t, notes)
      | (Return _, notes) => (noResultsText, notes)
      end
  end.

Definition readFileGrepResult (host : Host) (nm : jsstring) (w : World)
  : FileData * World :=
  let (text, notes) := grepResultText host w in
  ({| data := TextEncoder_encode text;
      meta := fileMetaOf nm (Z.of_nat (length text)) |},
   flash notes w).

(** The entry points.  [answer] is what [editor.prompt] resolves to;
    the [_call] functions give the arguments of the [openGrep] call an entry
    point makes, [None] when it returns without one. *)
Definition searchText_call (answer : option jsstring) : option GrepArgs :=
  if negb (truthy answer) then None
  else match answer with
       | Some pat =>
           Some {| pattern := pat; literal := true; folder := lit "." |}
       | None => None
       end.

Definition searchRegex_call (answer : option jsstring) : option GrepArgs :=
  if negb (truthy answer) then None
  else match answer with
       | Some pat =>
           Some {| pattern := pat; literal := false; folder := lit "." |}
       | None => None
       end.

Definition searchRegexInFolder_call (pageName : jsstring)
  (answer : option jsstring) : option GrepArgs :=
  if negb (truthy answer) then None
  else match answer with
       | Some pat =>
           Some {| pattern := pat; literal := false;
                   folder := folderOfPage pageName |}
       | None => None
       end.

Definition searchTextInFolder_call (pageName : jsstring)
  (answer : option jsstring) : option GrepArgs :=
  if negb (truthy answer) then None
  else match answer with
       | Some pat =>
           Some {| pattern := pat; literal := false;
                   folder := folderOfPage pageName |}
       | None => None
       end.

Definition runCall (host : Host) (call : option GrepArgs) (w : World)
  : Completion unit * World :=
  match call with
  | None => (Return tt, w)
  | Some a => openGrep host a w
  end.

Definition searchText (host : Host) (answer : option jsstring) (w : World)
  : Completion unit * World :=
  runCall host (searchText_call answer) w.

Definition searchRegex (host : Host) (answer : option jsstring) (w : World)
  : Completion unit * World :=
  runCall host (searchRegex_call answer) w.

Definition searchRegexInFolder (host : Host) (answer : option jsstring)
  (w : World) : Completion unit * World :=
  runCall host (searchRegexInFolder_call (currentPage w) answer) w.

Definition searchTextInFolder (host : Host) (answer : option jsstring)
  (w : World) : Completion unit * World :=
  runCall host (searchTextInFolder_call (currentPage w) answer) w.

End Commands.

(** ** The version command *)

Definition VERSION : jsstring := lit "2.3.0".

Definition gitMissingNotification : Notification :=
  {| message := lit "Could not run 'git' command, make sure Git is in PATH";
     type := Some (lit "error") |}.

(** [showVersion()]: the notification it flashes.  Destructuring a falsy
    result throws inside the [try], like a failing run. *)
Definition showVersion (host : Host) : Notification :=
  match shell_run host (lit "git") [lit "--version"] with
  | ShellOk stdout =>
      let gitVersion := at_ (split stdout nl) 0 in
      {| message := lit "Grep Plug " ++ VERSION ++ lit " " ++ gitVersion;
         type := None |}
  | _ => gitMissingNotification
  end.

(** ** A small runtime to run the definitions on

    ASCII case mapping, and the regular expressions [escapeRegExp] produces
    together with the ones that need no escaping: a sequence of ordinary
    characters and backslash-escaped punctuation, matched unit by unit
    (compared through their upper-case forms under the [i] flag).  Any other
    source is refused as a [SyntaxError].  Numbers are doubles: [parseInt]
    of a string of digits rounds to the nearest double, ties to even, and
    [toString] writes the shortest digits that read back as the same
    double ([parseInt] of a string that does not start with a digit is not
    modelled and gives NaN). *)

Module SmallRuntime.

Definition lowerUnit (c : N) : N :=
  if N.leb 65 c && N.leb c 90 then (c + 32)%N else c.

Definition upperUnit (c : N) : N :=
  if N.leb 97 c && N.leb c 122 then (c - 32)%N else c.

Definition asciiToLowerCase (s : jsstring) : jsstring := map lowerUnit s.

Record LiteralRegExp : Type := {
  units : jsstring;
  ignoreCase : bool
}.

(** A backslash before a character that is no letter, digit or underscore
    stands for that character (an identity escape). *)
Definition isWordUnit (c : N) : bool :=
  isDigit c || (N.leb 65 c && N.leb c 90) || (N.leb 97 c && N.leb c 122)
    || N.eqb c 95.

Fixpoint unescape (src : jsstring) : option jsstring :=
  match src with
  | [] => Some []
  | c :: src' =>
      if N.eqb c backslash
      then match src' with
           | d :: src'' =>
               if isWordUnit d then None
               else option_map (cons d) (unescape src'')
           | [] => None
           end
      else if isRegExpSpecial c then None
      else option_map (cons c) (unescape src')
  end.

Definition literal_new (source flags : jsstring) : option LiteralRegExp :=
  match unescape source with
  | None => None
  | Some us =>
      if eqb flags (lit "g")
      then Some {| units := us; ignoreCase := false |}
      else if eqb flags (lit "gi")
      then Some {| units := us; ignoreCase := true |}
      else None
  end.

Definition canonicalize (r : LiteralRegExp) (s : jsstring) : jsstring :=
  if ignoreCase r then map upperUnit s else s.

Definition literal_matcher (r : LiteralRegExp) (s : jsstring) (i : nat)
  : option nat :=
  let e := i + length (units r) in
  if Nat.leb e (length s)
       && eqb (canonicalize r (firstn (length (units r)) (skipn i s)))
              (canonicalize r (units r))
  then Some e
  else None.

(** The nearest double of a natural number, ties to even; 2^1024 and
    above round to infinity. *)
Definition toDouble (n : N) : JSNumber :=
  if N.ltb n (2 ^ 53) then Finite (Z.of_N n)
  else
    let e := (N.size n - 53)%N in
    let q := N.shiftr n e in
    let r := (n - N.shiftl q e)%N in
    let half := N.shiftl 1 (e - 1) in
    let q' :=
      if N.ltb half r || (N.eqb r half && N.odd q) then (q + 1)%N else q in
    let v := N.shiftl q' e in
    if N.leb (2 ^ 1024) v then Infinity else Finite (Z.of_N v).

Fixpoint digitsValue_go (acc : N) (s : jsstring) : N :=
  match s with
  | c :: s' =>
      if isDigit c then digitsValue_go (10 * acc + (c - 48)) s' else acc
  | [] => acc
  end.

Definition small_parseInt (s : jsstring) : JSNumber :=
  match s with
  | c :: _ => if isDigit c then toDouble (digitsValue_go 0 s) else NaN
  | [] => NaN
  end.

(** Decimal digits of a binary natural number. *)
Fixpoint decimal_go (fuel : nat) (n : N) (acc : jsstring) : jsstring :=
  match fuel with
  | O => acc
  | S fuel' =>
      let acc' := (48 + n mod 10)%N :: acc in
      if N.ltb n 10 then acc' else decimal_go fuel' (n / 10) acc'
  end.

Definition decimal (n : N) : jsstring :=
  decimal_go (S (N.to_nat (N.size n))) n [].

Definition roundTrips (x v : N) : bool :=
  match toDouble v with
  | Finite z => Z.eqb z (Z.of_N x)
  | _ => false
  end.

(** With [k] significant digits out of [nd]: the multiple of 10^(nd - k)
    that reads back as the double [x], the closest one when both
    neighbours do. *)
Definition withDigits (x : N) (nd k : nat) : option N :=
  let p := (10 ^ N.of_nat (nd - k))%N in
  let lo := (x / p)%N in
  let vlo := (lo * p)%N in
  let vhi := ((lo + 1) * p)%N in
  match roundTrips x vlo, roundTrips x vhi with
  | true, true =>
      Some (if N.ltb (x - vlo) (vhi - x) then vlo
            else if N.ltb (vhi - x) (x - vlo) then vhi
            else if N.even lo then vlo else vhi)
  | true, false => Some vlo
  | false, true => Some vhi
  | false, false => None
  end.

Fixpoint shortest_go (x : N) (nd k fuel : nat) : N :=
  match fuel with
  | O => x
  | S fuel' =>
      match withDigits x nd k with
      | Some v => v
      | None => shortest_go x nd (S k) fuel'
      end
  end.

Definition shortest (x : N) : N :=
  let nd := length (decimal x) in
  shortest_go x nd 1 nd.

Fixpoint dropZeros (s : jsstring) : jsstring :=
  match s with
  | c :: s' => if N.eqb c 48 then dropZeros s' else s
  | [] => []
  end.

(** A double of 2^53 or more: plain digits below 10^21, exponent form from
    there on. *)
Definition bigToString (x : N) : jsstring :=
  let ds := decimal (shortest x) in
  if Nat.leb (length ds) 21 then ds
  else
    match rev (dropZeros (rev ds)) with
    | d :: [] => d :: lit "e+" ++ toString (length ds - 1)
    | d :: more => d :: lit "." ++ more ++ lit "e+" ++ toString (length ds - 1)
    | [] => []
    end.

Definition magnitudeToString (m : N) : jsstring :=
  if N.ltb m (2 ^ 53) then toString (N.to_nat m) else bigToString m.

Definition small_toString (x : JSNumber) : jsstring :=
  match x with
  | Finite z =>
      if Z.ltb z 0 then lit "-" ++ magnitudeToString (Z.to_N (- z))
      else magnitudeToString (Z.to_N z)
  | Infinity => lit "Infinity"
  | MinusInfinity => lit "-Infinity"
  | NaN => lit "NaN"
  end.

Lemma digitsValue_go_nat (s : jsstring) (acc : nat) :
  digitsValue_go (N.of_nat acc) s = N.of_nat (parseInt_go acc s).
Proof.
  revert acc; induction s as [|c s IH]; intros acc; [reflexivity |].
  cbn [digitsValue_go parseInt_go]. destruct (isDigit c); [| reflexivity].
  rewrite <- IH. f_equal. lia.
Qed.

Lemma small_parseInt_safe (s : jsstring) :
  s <> [] ->
  Forall (fun c => isDigit c = true) s ->
  (Z.of_nat (parseInt s) < 2 ^ 53)%Z ->
  small_parseInt s = Finite (Z.of_nat (parseInt s)).
Proof.
  intros Hne Hall Hlt. destruct Hall as [|c s Hc Hs]; [congruence |].
  unfold small_parseInt. rewrite Hc.
  change 0%N with (N.of_nat 0). rewrite digitsValue_go_nat.
  fold (parseInt (c :: s)). unfold toDouble.
  assert (Hb : N.ltb (N.of_nat (parseInt (c :: s))) (2 ^ 53) = true).
  { apply N.ltb_lt. lia. }
  rewrite Hb. f_equal. lia.
Qed.

Lemma small_toString_safe (n : nat) :
  (Z.of_nat n < 2 ^ 53)%Z ->
  small_toString (Finite (Z.of_nat n)) = toString n.
Proof.
  intros Hlt. unfold small_toString, magnitudeToString.
  assert (H0 : Z.ltb (Z.of_nat n) 0 = false) by (apply Z.ltb_ge; lia).
  rewrite H0.
  assert (Hb : N.ltb (Z.to_N (Z.of_nat n)) (2 ^ 53) = true).
  { apply N.ltb_lt. lia. }
  rewrite Hb. f_equal. lia.
Qed.

Lemma literal_matcher_end (r : LiteralRegExp) (s : jsstring) (i e : nat) :
  literal_matcher r s i = Some e -> i <= e <= length s.
Proof.
  unfold literal_matcher.
  destruct (Nat.leb (i + length (units r)) (length s)) eqn:Hle; simpl.
  - apply Nat.leb_le in Hle.
    destruct (eqb _ _); intros H; inversion H; subst; lia.
  - discriminate.
Qed.

#[export] Instance runtime : JSRuntime := {|
  RegExp := LiteralRegExp;
  toLowerCase := asciiToLowerCase;
  RegExp_new := literal_new;
  RegExp_matcher := literal_matcher;
  RegExp_matcher_end := literal_matcher_end;
  Number_parseInt := small_parseInt;
  Number_toString := small_toString;
  Number_parseInt_safe := small_parseInt_safe;
  Number_toString_safe := small_toString_safe
|}.

End SmallRuntime.

(** ** The folder filter in the specification's words

    The exclusion rule read on the configured patterns as they are written,
    to be compared with [shouldIgnoreFolder]: the folder path equals a
    pattern, or a pattern ends in [/*] and the folder path starts with what
    comes before that suffix. *)

Definition excludedAsWritten (folderPath : jsstring)
  (folders : list jsstring) : Prop :=
  exists ignorePattern,
    In ignorePattern folders
    /\ (folderPath = ignorePattern
        \/ exists base rest,
             ignorePattern = base ++ lit "/*" /\ folderPath = base ++ rest).

(** ** Sample data *)

Module Sample.

Definition config0 : GrepConfig :=
  {| smartCase := None; surround := None; saveResults := None;
     ignoreFolders := None |}.

Definition ignoring (folders : list jsstring) : GrepConfig :=
  {| smartCase := None; surround := None; saveResults := None;
     ignoreFolders := Some folders |}.

Definition hostOf (config : GrepConfig) (result : ShellResult) : Host :=
  {| getSpaceConfig := config;
     shell_run := fun _ _ => result;
     pageText := fun _ => [] |}.

Definition emptyWorld : World :=
  {| stored := None; currentPage := lit "notes/today"; editorText := [];
     flashed := [] |}.

(** Two documents; the second line of the first holds the word twice. *)
Definition output1 : jsstring :=
  lit "notes/b.md" ++ nl ++ lit "7:1:todo" ++ nl ++ nl
    ++ lit "notes/a.md" ++ nl ++ lit "1:3:a todo item" ++ nl
    ++ lit "2:9:another TODO here todo".

Definition todo : GrepArgs :=
  {| pattern := lit "todo"; literal := true; folder := lit "." |}.

(** What [new RegExp("todo", "gi")] is in the small runtime. *)
Definition todoRegExp : SmallRuntime.LiteralRegExp :=
  {| SmallRuntime.units := lit "todo"; SmallRuntime.ignoreCase := true |}.

(** Three documents with one, three and one match. *)
Definition output3 : jsstring :=
  output1 ++ nl ++ nl ++ lit "notes/c.md" ++ nl ++ lit "4:5:the todo".

(** [git grep -E] reads [\<] as the start of a word; JavaScript reads it as
    the character [<]. *)
Definition wordStart : GrepArgs :=
  {| pattern := [backslash] ++ lit "<todo"; literal := false;
     folder := lit "." |}.

Definition outputA : jsstring :=
  lit "notes/a.md" ++ nl ++ lit "1:3:a todo item".

(** A match in an archived document and one in a note. *)
Definition outputArchive : jsstring :=
  lit "archive/old/x.md" ++ nl ++ lit "2:1:todo later" ++ nl ++ nl
    ++ lit "notes/b.md" ++ nl ++ lit "7:1:todo".

(** An output that reports hits in both result pages. *)
Definition outputWithResultPages : jsstring :=
  resultPageSaved ++ lit ".md" ++ nl ++ lit "3:10:* [[x]]: todo" ++ nl ++ nl
    ++ resultPageVirtual ++ lit ".md" ++ nl ++ lit "3:10:* [[x]]: todo"
    ++ nl ++ nl ++ lit "notes/b.md" ++ nl ++ lit "7:1:todo".

(** A pattern [git grep -E] takes (a leading star is an ordinary character
    there) and [new RegExp] refuses. *)
Definition starA : GrepArgs :=
  {| pattern := lit "*a"; literal := false; folder := lit "." |}.

Definition worldWith (a : GrepArgs) : World :=
  {| stored := Some a; currentPage := resultPageVirtual; editorText := [];
     flashed := [] |}.

End Sample.

(** * Properties *)

(** ** JavaScript strings *)

Lemma eqb_eq (a b : jsstring) : eqb a b = true <-> a = b.
Proof.
  revert b; induction a as [|x a IH]; intros [|y b]; simpl;
    try (split; [discriminate | congruence]); try tauto.
  rewrite andb_true_iff, N.eqb_eq, IH.
  split; [intros [-> ->]; reflexivity | intros E; inversion E; auto].
Qed.

Lemma eqb_refl (a : jsstring) : eqb a a = true.
Proof. apply eqb_eq; reflexivity. Qed.

Lemma eqb_neq (a b : jsstring) : eqb a b = false <-> a <> b.
Proof.
  rewrite <- eqb_eq. destruct (eqb a b); split; congruence.
Qed.

Lemma startsWith_spec (s p : jsstring) :
  startsWith s p = true <-> exists t, s = p ++ t.
Proof.
  revert s; induction p as [|y p IH]; intros s; simpl.
  - split; [intros _; exists s; reflexivity | reflexivity].
  - destruct s as [|x s].
    + split; [discriminate | intros [t E]; discriminate].
    + rewrite andb_true_iff, N.eqb_eq, IH. split.
      * intros [-> [t ->]]. exists t; reflexivity.
      * intros [t E]. inversion E; subst. split; [reflexivity | eauto].
Qed.

Lemma endsWith_spec (s p : jsstring) :
  endsWith s p = true <-> exists t, s = t ++ p.
Proof.
  unfold endsWith. rewrite andb_true_iff, Nat.leb_le, eqb_eq. split.
  - intros [_ E]. exists (firstn (length s - length p) s).
    pose proof (firstn_skipn (length s - length p) s) as F.
    rewrite E in F. symmetry; exact F.
  - intros [t ->]. rewrite length_app. split; [lia |].
    replace (length t + length p - length p) with (length t + 0) by lia.
    rewrite skipn_app, Nat.add_0_r, skipn_all.
    replace (length t - length t) with 0 by lia. reflexivity.
Qed.

Lemma sliceDropLast_app (t p : jsstring) :
  sliceDropLast (t ++ p) (length p) = t.
Proof.
  unfold sliceDropLast. rewrite length_app.
  replace (length t + length p - length p) with (length t + 0) by lia.
  rewrite firstn_app_2. simpl. apply app_nil_r.
Qed.

Example split_blank_line :
  split (lit "a.md" ++ nl ++ lit "1:1:x" ++ nl ++ nl ++ lit "b.md") (nl ++ nl)
  = [lit "a.md" ++ nl ++ lit "1:1:x"; lit "b.md"].
Proof. reflexivity. Qed.

Example split_trailing_separator :
  split (lit "a:b:") (lit ":") = [lit "a"; lit "b"; []].
Proof. reflexivity. Qed.

Example toString_120 : toString 120 = lit "120".
Proof. reflexivity. Qed.

Example parseInt_leading_zeros : parseInt (lit "007") = 7.
Proof. reflexivity. Qed.

Example lastIndexOf_absent : lastIndexOf (lit "page") slash = (-1)%Z.
Proof. reflexivity. Qed.

Example lastIndexOf_last : lastIndexOf (lit "a/b/c") slash = 3%Z.
Proof. reflexivity. Qed.

Example normalizePath_sample :
  normalizePath (lit "./notes" ++ [backslash] ++ lit "a") = lit "notes/a".
Proof. reflexivity. Qed.

(** The magnifying glass of the virtual page's name is F0 9F 94 8D. *)
Example encode_resultPageVirtual :
  skipn 12 (TextEncoder_encode resultPageVirtual)
  = [0xF0; 0x9F; 0x94; 0x8D]%N.
Proof. reflexivity. Qed.

(** ** Case sensitivity *)

(** C1. With [smartCase] disabled the search is case-sensitive; otherwise it
    is case-sensitive exactly when the pattern differs from its lower-case
    form.  The resolved value decides both the [--ignore-case] option among
    the arguments given to [git] before the pattern, and the [i] flag of the
    regular expression that re-scans each line. *)
Theorem case_sensitivity_resolution {RT : JSRuntime}
  (config : GrepConfig) (a : GrepArgs) :
  (smartCase config = Some false ->
   caseSensitive config (pattern a) = true)
  /\ (smartCase config <> Some false ->
      (caseSensitive config (pattern a) = true
       <-> toLowerCase (pattern a) <> pattern a))
  /\ (exists options pathspec,
        gitArgs config a = options ++ [pattern a; lit "--"; pathspec]
        /\ (In (lit "--ignore-case") options
            <-> caseSensitive config (pattern a) = false))
  /\ (In 105%N (innerRegexFlags config a)
      <-> caseSensitive config (pattern a) = false).
Proof.
  assert (Hcs : smartCase config <> Some false ->
                (caseSensitive config (pattern a) = true
                 <-> toLowerCase (pattern a) <> pattern a)).
  { unfold caseSensitive, smartCaseOf.
    destruct (smartCase config) as [[|]|]; intros Hs; try congruence;
      rewrite negb_true_iff; apply eqb_neq. }
  split; [| split; [exact Hcs | split]].
  - intros E. unfold caseSensitive, smartCaseOf. rewrite E. reflexivity.
  - unfold gitArgs.
    destruct (caseSensitive config (pattern a)) eqn:Ecs.
    + exists
        ([ lit "-c"; lit "core.quotePath=false"; lit "grep"; lit "--heading";
           lit "--break"; lit "--line-number"; lit "--column";
           lit "--no-color"; lit "--no-index" ]
           ++ [if literal a then lit "--fixed-strings"
               else lit "--extended-regexp"]).
      eexists. split.
      * rewrite <- app_assoc. reflexivity.
      * split; [| discriminate]. intros Hin. exfalso.
        apply in_app_or in Hin. destruct Hin as [Hin | Hin].
        -- simpl in Hin.
           repeat (destruct Hin as [Hin | Hin]; [discriminate |]).
           exact Hin.
        -- destruct (literal a); simpl in Hin;
             destruct Hin as [Hin | Hin]; try discriminate; exact Hin.
    + exists
        ([ lit "-c"; lit "core.quotePath=false"; lit "grep"; lit "--heading";
           lit "--break"; lit "--line-number"; lit "--column";
           lit "--no-color"; lit "--no-index" ]
           ++ [lit "--ignore-case";
               if literal a then lit "--fixed-strings"
               else lit "--extended-regexp"]).
      eexists. split.
      * rewrite <- app_assoc. reflexivity.
      * split; [reflexivity |]. intros _.
        apply in_or_app. right. left. reflexivity.
  - unfold innerRegexFlags.
    destruct (caseSensitive config (pattern a)).
    + split; [| discriminate]. intros Hin. simpl in Hin.
      destruct Hin as [Hin | Hin]; [discriminate | contradiction].
    + split; [reflexivity |]. intros _. simpl. right. left. reflexivity.
Qed.

(** For the small runtime, a pattern differs from its lower-case form
    exactly when it holds one of the letters A to Z. *)
Lemma ascii_lowercase_differs_iff_upper (pat : jsstring) :
  SmallRuntime.asciiToLowerCase pat <> pat
  <-> exists c, In c pat /\ (65 <= c <= 90)%N.
Proof.
  unfold SmallRuntime.asciiToLowerCase.
  induction pat as [|x pat IH]; simpl.
  - split; [congruence | intros [c [[] _]]].
  - unfold SmallRuntime.lowerUnit at 1.
    destruct (N.leb 65 x && N.leb x 90) eqn:Hup.
    + apply andb_true_iff in Hup. destruct Hup as [H1 H2].
      apply N.leb_le in H1, H2. split.
      * intros _. exists x. split; [left; reflexivity | lia].
      * intros _ E. inversion E. lia.
    + split.
      * intros Hne.
        assert (Hne' : map SmallRuntime.lowerUnit pat <> pat) by congruence.
        apply IH in Hne'. destruct Hne' as [c [Hin Hc]].
        exists c. split; [right; exact Hin | exact Hc].
      * intros [c [[-> | Hin] Hc]].
        -- apply andb_false_iff in Hup.
           destruct Hup as [Hup | Hup]; apply N.leb_gt in Hup; lia.
        -- intros E. inversion E.
           apply (proj2 IH); [exists c; auto | assumption].
Qed.

(** ** Surround markers *)

(** C10. When [surround] is an object, an empty [left] or [right] leaves the
    default marker in place; both markers are empty exactly when [surround]
    is [false]. *)
Theorem surround_empty_string_keeps_default
  (sc sv : option bool) (ig : option (list jsstring))
  (l r : option jsstring) :
  surroundLeftOf
    {| smartCase := sc; surround := Some (SurroundObj (Some []) r);
       saveResults := sv; ignoreFolders := ig |} = lit ">>>"
  /\ surroundRightOf
       {| smartCase := sc; surround := Some (SurroundObj l (Some []));
          saveResults := sv; ignoreFolders := ig |} = lit "<<<"
  /\ (forall config : GrepConfig,
        surroundLeftOf config = [] /\ surroundRightOf config = []
        <-> surround config = Some SurroundFalse).
Proof.
  split; [reflexivity | split; [reflexivity |]].
  intros config. unfold surroundLeftOf, surroundRightOf.
  destruct (surround config) as [[| ll rr]|].
  - split; auto.
  - split; [| discriminate]. intros [Hl _].
    destruct ll as [[|c ll]|]; discriminate.
  - split; [| discriminate]. intros [Hl _]. discriminate.
Qed.

(** ** Failures of the external search *)

(** When running [git] throws, [grep] flashes the error notification and
    returns no text; when the run gives nothing or an empty output, it
    flashes the "no results" notification, a different one, and returns no
    text.  In neither case does [grep] throw. *)
Lemma external_search_failure_handling {RT : JSRuntime}
  (host : Host) (a : GrepArgs) :
  let run := shell_run host (lit "git") (gitArgs (getSpaceConfig host) a) in
  (run = ShellThrows ->
   grep host a = (Return None, [gitErrorNotification]))
  /\ (run = ShellFalsy \/ run = ShellOk [] ->
      grep host a = (Return None, [noResultsNotification a]))
  /\ type gitErrorNotification = Some (lit "error")
  /\ type (noResultsNotification a) = None
  /\ gitErrorNotification <> noResultsNotification a.
Proof.
  cbv zeta. unfold grep, grepFileMatches.
  split; [| split; [| split; [| split]]].
  - intros ->. reflexivity.
  - intros [-> | ->]; reflexivity.
  - reflexivity.
  - reflexivity.
  - intros E. apply (f_equal type) in E. discriminate.
Qed.

(** C7 (amended). The error notification is for a run that throws, that
    is, a command that cannot be run: then [grep] flashes it, returns no
    text and does not throw.  A run that resolves is judged by its output
    alone, whatever its exit code: with no result or an empty [stdout],
    [grep] flashes the "no results" notification, which differs from the
    error one, and returns no text. *)
Theorem external_search_outcome_by_output {RT : JSRuntime}
  (config : GrepConfig) (run : jsstring -> list jsstring -> ShellRun)
  (pages : jsstring -> jsstring) (a : GrepArgs) :
  let host := hostRunning config run pages in
  let ran := run (lit "git") (gitArgs config a) in
  (ran = RunThrows ->
   grep host a = (Return None, [gitErrorNotification]))
  /\ (ran = RunFalsy
      \/ (exists result, ran = RunResolves result /\ stdout result = []) ->
      grep host a = (Return None, [noResultsNotification a]))
  /\ (forall exitCode errors,
        ran = RunResolves
                {| stdout := []; stderr := errors; code := exitCode |} ->
        grep host a = (Return None, [noResultsNotification a]))
  /\ type gitErrorNotification = Some (lit "error")
  /\ type (noResultsNotification a) = None
  /\ gitErrorNotification <> noResultsNotification a.
Proof.
  cbv zeta.
  destruct (external_search_failure_handling (hostRunning config run pages) a)
    as [Hthrow [Hnone [Ht1 [Ht2 Hne]]]].
  cbn [hostRunning getSpaceConfig shell_run] in Hthrow, Hnone.
  split; [| split; [| split; [| split; [| split]]]]; try assumption.
  - intros E. apply Hthrow. rewrite E. reflexivity.
  - intros [E | [result [E Hout]]]; apply Hnone; rewrite E; cbn [resultOf].
    + left. reflexivity.
    + right. rewrite Hout. reflexivity.
  - intros exitCode errors E. apply Hnone. rewrite E. right. reflexivity.
Qed.

(** C7 as stated fails: [git] exits with code 128 and writes only to
    [stderr]; the run resolves, and [grep] flashes the "no results"
    notification, not the error one. *)
Lemma abnormal_exit_counterexample :
  let result :=
    {| stdout := []; stderr := lit "fatal: not a git repository";
       code := 128 |} in
  let host :=
    hostRunning Sample.config0 (fun _ _ => RunResolves result)
      (fun _ => []) in
  (code result <> 0)%Z
  /\ grep (RT := SmallRuntime.runtime) host Sample.todo
     = (Return None, [noResultsNotification Sample.todo])
  /\ noResultsNotification Sample.todo <> gitErrorNotification.
Proof.
  cbv zeta. split; [discriminate | split; [reflexivity |]].
  intros E. apply (f_equal type) in E. discriminate.
Qed.

(** ** The virtual result page *)

(** C9. Reading the virtual page when no arguments were stored, or when
    replaying the stored arguments throws, serves the explanatory text as the
    file's content. *)
Theorem lazy_render_error_recovery {RT : JSRuntime}
  (host : Host) (nm : jsstring) (w : World) :
  stored w = None
  \/ (exists args, stored w = Some args /\ fst (grep host args) = Throw) ->
  data (fst (readFileGrepResult host nm w))
    = TextEncoder_encode couldNotCallText
  /\ size (meta (fst (readFileGrepResult host nm w)))
     = Z.of_nat (length couldNotCallText).
Proof.
  intros H. unfold readFileGrepResult, grepResultText.
  destruct H as [-> | [args [-> Hthrow]]].
  - split; reflexivity.
  - destruct (grep host args) as [c notes]. simpl in Hthrow. subst c.
    split; reflexivity.
Qed.

Lemma lazy_render_error_recovery_witness :
  data (fst (readFileGrepResult (RT := SmallRuntime.runtime)
               (Sample.hostOf Sample.config0
                  (ShellOk (lit "n.md" ++ nl ++ lit "1:1:*a")))
               resultPageVirtual (Sample.worldWith Sample.starA)))
    = TextEncoder_encode couldNotCallText
  /\ size (meta (fst (readFileGrepResult (RT := SmallRuntime.runtime)
                        (Sample.hostOf Sample.config0
                           (ShellOk (lit "n.md" ++ nl ++ lit "1:1:*a")))
                        resultPageVirtual (Sample.worldWith Sample.starA))))
     = Z.of_nat (length couldNotCallText).
Proof.
  apply (@lazy_render_error_recovery SmallRuntime.runtime).
  right. exists Sample.starA. split; reflexivity.
Defined.

(** With nothing stored the same text is served. *)
Example lazy_render_nothing_stored :
  data (fst (readFileGrepResult (RT := SmallRuntime.runtime)
               (Sample.hostOf Sample.config0 ShellThrows)
               resultPageVirtual Sample.emptyWorld))
  = TextEncoder_encode couldNotCallText.
Proof. reflexivity. Qed.

(** ** Entry points *)

(** C5 (fails on the code). "Search literal text in current folder" calls
    [openGrep] with [literal = false]: for every page and every answer to the
    prompt it issues exactly what "search pattern in current folder" issues,
    while the whole-tree literal search issues [literal = true].  For the
    text [a.b] typed on page [notes/today] the query is a pattern query, and
    the search runs [git grep] with [--extended-regexp]. *)
Theorem searchTextInFolder_issues_pattern_query :
  (forall pageName answer,
     searchTextInFolder_call pageName answer
     = searchRegexInFolder_call pageName answer)
  /\ searchTextInFolder_call (lit "notes/today") (Some (lit "a.b"))
     = Some {| pattern := lit "a.b"; literal := false;
               folder := lit "notes/" |}
  /\ searchText_call (Some (lit "a.b"))
     = Some {| pattern := lit "a.b"; literal := true; folder := lit "." |}
  /\ stored (snd (searchTextInFolder (RT := SmallRuntime.runtime)
                    (Sample.hostOf Sample.config0 ShellThrows)
                    (Some (lit "a.b")) Sample.emptyWorld))
     = Some {| pattern := lit "a.b"; literal := false;
               folder := lit "notes/" |}
  /\ In (lit "--extended-regexp")
        (gitArgs (RT := SmallRuntime.runtime) Sample.config0
           {| pattern := lit "a.b"; literal := false;
              folder := lit "notes/" |}).
Proof.
  split; [reflexivity |].
  split; [reflexivity |].
  split; [reflexivity |].
  split; [reflexivity |].
  vm_compute. tauto.
Qed.

(** An empty or dismissed prompt makes every entry point return at once: no
    query is issued and nothing changes. *)
Lemma empty_pattern_is_noop {RT : JSRuntime} (host : Host) (w : World)
  (answer : option jsstring) :
  truthy answer = false ->
  searchText_call answer = None
  /\ searchRegex_call answer = None
  /\ searchTextInFolder_call (currentPage w) answer = None
  /\ searchRegexInFolder_call (currentPage w) answer = None
  /\ searchText host answer w = (Return tt, w)
  /\ searchRegex host answer w = (Return tt, w)
  /\ searchTextInFolder host answer w = (Return tt, w)
  /\ searchRegexInFolder host answer w = (Return tt, w).
Proof.
  intros H.
  unfold searchText, searchRegex, searchTextInFolder, searchRegexInFolder,
    searchText_call, searchRegex_call, searchTextInFolder_call,
    searchRegexInFolder_call.
  rewrite H. simpl. repeat (split; [reflexivity |]). reflexivity.
Qed.

(** ** What reaches the report *)

(** A search that gets as far as rendering ran [git] with a non-empty
    output, built its regular expression, and renders the ranked
    documents of that output. *)
Lemma grepFileMatches_inv {RT : JSRuntime} (host : Host) (a : GrepArgs)
  (docs : list FileMatch) :
  fst (grepFileMatches host a) = Return (Some docs) ->
  exists output innerRegex,
    shell_run host (lit "git") (gitArgs (getSpaceConfig host) a)
      = ShellOk output
    /\ output <> []
    /\ RegExp_new (innerRegexSource a) (innerRegexFlags (getSpaceConfig host) a)
       = Some innerRegex
    /\ docs = ranked (getSpaceConfig host) innerRegex output.
Proof.
  unfold grepFileMatches.
  destruct (shell_run host (lit "git") (gitArgs (getSpaceConfig host) a))
    as [| | [|u output]]; simpl; try discriminate.
  destruct (RegExp_new _ _) as [re|] eqn:Hre; simpl; [| discriminate].
  intros E. inversion E. exists (u :: output), re.
  repeat split; auto. discriminate.
Qed.

Lemma grep_report {RT : JSRuntime} (host : Host) (a : GrepArgs)
  (text : jsstring) :
  fst (grep host a) = Return (Some text) <->
  exists docs,
    fst (grepFileMatches host a) = Return (Some docs)
    /\ text = renderReport a docs.
Proof.
  unfold grep.
  destruct (grepFileMatches host a) as [[[docs|]|] notes]; simpl.
  - split.
    + intros E. inversion E. exists docs. auto.
    + intros [d [E ->]]. inversion E. reflexivity.
  - split; [discriminate | intros [d [E _]]; discriminate].
  - split; [discriminate | intros [d [E _]]; discriminate].
Qed.

(** ** Sorting by a count, largest first *)

Section SortByKey.
Variable A : Type.
Variable key : A -> nat.

Let byKey (a b : A) : Z := (- (Z.of_nat (key a) - Z.of_nat (key b)))%Z.

Lemma sort_insert_perm (x : A) (l : list A) :
  Permutation (x :: l) (sort_insert byKey x l).
Proof.
  induction l as [|y l IH]; simpl; [reflexivity |].
  destruct (byKey x y <=? 0)%Z; [reflexivity |].
  rewrite perm_swap. apply perm_skip. exact IH.
Qed.

Lemma Array_sort_perm (l : list A) : Permutation l (Array_sort byKey l).
Proof.
  induction l as [|x l IH]; simpl; [reflexivity |].
  rewrite <- sort_insert_perm. apply perm_skip. exact IH.
Qed.

Lemma sort_insert_sorted (x : A) (l : list A) :
  StronglySorted (fun a b => key b <= key a) l ->
  StronglySorted (fun a b => key b <= key a) (sort_insert byKey x l).
Proof.
  induction 1 as [|y l Hs IH Hy]; simpl.
  - constructor; constructor.
  - destruct (byKey x y <=? 0)%Z eqn:Hc.
    + apply Z.leb_le in Hc. unfold byKey in Hc.
      constructor; [constructor; assumption |].
      constructor; [lia |].
      rewrite Forall_forall in Hy |- *. intros z Hz.
      specialize (Hy z Hz). lia.
    + apply Z.leb_gt in Hc. unfold byKey in Hc.
      constructor; [exact IH |].
      rewrite Forall_forall in Hy |- *. intros z Hz.
      apply (Permutation_in z (Permutation_sym (sort_insert_perm x l))) in Hz.
      destruct Hz as [<- | Hz]; [lia | auto].
Qed.

Lemma Array_sort_sorted (l : list A) :
  StronglySorted (fun a b => key b <= key a) (Array_sort byKey l).
Proof.
  induction l as [|x l IH]; simpl; [constructor |].
  apply sort_insert_sorted. exact IH.
Qed.

(** An element only moves past elements of a strictly larger count, so the
    elements of any one count keep their order. *)
Lemma sort_insert_stable (n : nat) (x : A) (l : list A) :
  filter (fun a => key a =? n) (sort_insert byKey x l)
  = filter (fun a => key a =? n) (x :: l).
Proof.
  induction l as [|y l IH]; [reflexivity |].
  simpl sort_insert. destruct (byKey x y <=? 0)%Z eqn:Hc; [reflexivity |].
  apply Z.leb_gt in Hc. unfold byKey in Hc.
  cbn [filter]. rewrite IH. cbn [filter].
  destruct (key x =? n) eqn:Hx; destruct (key y =? n) eqn:Hy;
    try reflexivity.
  apply Nat.eqb_eq in Hx, Hy. lia.
Qed.

Lemma Array_sort_stable (n : nat) (l : list A) :
  filter (fun a => key a =? n) (Array_sort byKey l)
  = filter (fun a => key a =? n) l.
Proof.
  induction l as [|x l IH]; [reflexivity |].
  simpl Array_sort. rewrite sort_insert_stable. simpl. rewrite IH.
  reflexivity.
Qed.

End SortByKey.

(** ** Ranking *)

(** C3. The documents of a report are a rearrangement of the documents
    found, in the order of the tool's output; they are rendered by
    descending match count, and the documents of any one match count keep
    the order in which they were found. *)
Theorem ranking_descending_and_stable {RT : JSRuntime}
  (host : Host) (a : GrepArgs) (docs : list FileMatch) :
  fst (grepFileMatches host a) = Return (Some docs) ->
  fst (grep host a) = Return (Some (renderReport a docs))
  /\ exists output innerRegex,
       shell_run host (lit "git") (gitArgs (getSpaceConfig host) a)
         = ShellOk output
       /\ RegExp_new (innerRegexSource a)
            (innerRegexFlags (getSpaceConfig host) a) = Some innerRegex
       /\ Permutation (discovered (getSpaceConfig host) innerRegex output) docs
       /\ StronglySorted
            (fun d1 d2 => length (matches d2) <= length (matches d1)) docs
       /\ forall n,
            filter (fun d => length (matches d) =? n) docs
            = filter (fun d => length (matches d) =? n)
                (discovered (getSpaceConfig host) innerRegex output).
Proof.
  intros H. split.
  - apply grep_report. exists docs. auto.
  - apply grepFileMatches_inv in H.
    destruct H as [output [re [Hrun [_ [Hre ->]]]]].
    exists output, re. unfold ranked.
    split; [exact Hrun | split; [exact Hre | split; [| split]]].
    + apply (Array_sort_perm (fun d => length (matches d))).
    + apply (Array_sort_sorted (fun d => length (matches d))).
    + intros n. apply (Array_sort_stable (fun d => length (matches d))).
Qed.

Lemma ranking_descending_and_stable_witness :
  fst (grep (RT := SmallRuntime.runtime)
         (Sample.hostOf Sample.config0 (ShellOk Sample.output3)) Sample.todo)
  = Return
      (Some
         (renderReport (RT := SmallRuntime.runtime) Sample.todo
            (ranked (RT := SmallRuntime.runtime) Sample.config0
               Sample.todoRegExp Sample.output3)))
  /\ exists output innerRegex,
       shell_run (Sample.hostOf Sample.config0 (ShellOk Sample.output3))
         (lit "git")
         (gitArgs (RT := SmallRuntime.runtime) Sample.config0 Sample.todo)
         = ShellOk output
       /\ RegExp_new (JSRuntime := SmallRuntime.runtime)
            (innerRegexSource Sample.todo)
            (innerRegexFlags (RT := SmallRuntime.runtime) Sample.config0
               Sample.todo) = Some innerRegex
       /\ Permutation
            (discovered (RT := SmallRuntime.runtime) Sample.config0
               innerRegex output)
            (ranked (RT := SmallRuntime.runtime) Sample.config0
               Sample.todoRegExp Sample.output3)
       /\ StronglySorted
            (fun d1 d2 => length (matches d2) <= length (matches d1))
            (ranked (RT := SmallRuntime.runtime) Sample.config0
               Sample.todoRegExp Sample.output3)
       /\ forall n,
            filter (fun d => length (matches d) =? n)
              (ranked (RT := SmallRuntime.runtime) Sample.config0
                 Sample.todoRegExp Sample.output3)
            = filter (fun d => length (matches d) =? n)
                (discovered (RT := SmallRuntime.runtime) Sample.config0
                   innerRegex output).
Proof.
  apply (@ranking_descending_and_stable SmallRuntime.runtime
           (Sample.hostOf Sample.config0 (ShellOk Sample.output3))
           Sample.todo).
  vm_compute. reflexivity.
Defined.

(** The sample output lists [notes/b] (one match), [notes/a] (three) and
    [notes/c] (one); the report has [notes/a] first and keeps [notes/b]
    before [notes/c]. *)
Example ranking_sample :
  map (fun d => (page d, length (matches d)))
    (ranked (RT := SmallRuntime.runtime) Sample.config0 Sample.todoRegExp
       Sample.output3)
  = [(lit "notes/a", 3); (lit "notes/b", 1); (lit "notes/c", 1)].
Proof. vm_compute. reflexivity. Qed.

(** ** Which documents are reported *)

Lemma acceptedPage_Some (config : GrepConfig) (lines : list jsstring)
  (pg : jsstring) :
  acceptedPage config lines = Some pg <->
  endsWith (at_ lines 0) (lit ".md") = true
  /\ pg = normalizePath (sliceDropLast (at_ lines 0) 3)
  /\ shouldIgnoreFolder (folderPathOf pg) config = false
  /\ pg <> resultPageSaved
  /\ pg <> resultPageVirtual.
Proof.
  unfold acceptedPage.
  destruct (endsWith (at_ lines 0) (lit ".md")); simpl.
  2: { split; [discriminate | intros [H _]; discriminate]. }
  set (p := normalizePath (sliceDropLast (at_ lines 0) 3)).
  destruct (shouldIgnoreFolder (folderPathOf p) config) eqn:Hig.
  { split; [discriminate |]. intros [_ [-> [H _]]]. congruence. }
  destruct (eqb p resultPageSaved) eqn:Hs.
  { apply eqb_eq in Hs. split; [discriminate |].
    intros [_ [-> [_ [H _]]]]. contradiction. }
  destruct (eqb p resultPageVirtual) eqn:Hv.
  { apply eqb_eq in Hv. split; [discriminate |].
    intros [_ [-> [_ [_ H]]]]. contradiction. }
  apply eqb_neq in Hs, Hv. split.
  - intros E. inversion E; subst pg. auto.
  - intros [_ [-> _]]. reflexivity.
Qed.

Section Reported.
Context {RT : JSRuntime}.
Variable config : GrepConfig.
Variable innerRegex : RegExp.

Lemma fileMatchOf_Some (fileOutput : jsstring) (d : FileMatch) :
  fileMatchOf config innerRegex fileOutput = Some d <->
  acceptedPage config (split fileOutput nl) = Some (page d)
  /\ matches d
     = flat_map (refineLine config innerRegex) (tl (split fileOutput nl)).
Proof.
  unfold fileMatchOf.
  destruct (acceptedPage config (split fileOutput nl)) as [pg|].
  - split.
    + intros E. inversion E; subst d. simpl. auto.
    + intros [E1 E2]. inversion E1; subst pg. rewrite <- E2.
      destruct d; reflexivity.
  - split; [discriminate | intros [E _]; discriminate].
Qed.

Lemma collectFileMatches_In (fileOutputs : list jsstring) (d : FileMatch) :
  In d (collectFileMatches config innerRegex fileOutputs) <->
  exists fileOutput,
    In fileOutput fileOutputs
    /\ fileMatchOf config innerRegex fileOutput = Some d.
Proof.
  induction fileOutputs as [|fo rest IH]; simpl.
  - split; [tauto | intros [x [[] _]]].
  - destruct (fileMatchOf config innerRegex fo) as [d'|] eqn:Hfo; simpl;
      rewrite IH; split.
    + intros [<- | [x [Hin Hx]]]; [exists fo; auto | exists x; auto].
    + intros [x [[<- | Hin] Hx]]; [left; congruence | right; eauto].
    + intros [x [Hin Hx]]. exists x; auto.
    + intros [x [[<- | Hin] Hx]]; [congruence | eauto].
Qed.

(** The documents of the report are the accepted groups of the output,
    each with the matches of its lines. *)
Lemma ranked_In (output : jsstring) (d : FileMatch) :
  In d (ranked config innerRegex output) <->
  exists fileOutput,
    In fileOutput (split output (nl ++ nl))
    /\ acceptedPage config (split fileOutput nl) = Some (page d)
    /\ matches d
       = flat_map (refineLine config innerRegex) (tl (split fileOutput nl)).
Proof.
  unfold ranked, discovered.
  pose proof (Array_sort_perm (fun x => length (matches x))
                (collectFileMatches config innerRegex
                   (split output (nl ++ nl)))) as HP.
  split.
  - intros Hin. apply (Permutation_in _ (Permutation_sym HP)) in Hin.
    apply collectFileMatches_In in Hin. destruct Hin as [fo [Hfo Hd]].
    apply fileMatchOf_Some in Hd. exists fo. tauto.
  - intros [fo [Hfo Hd]]. apply (Permutation_in _ HP).
    apply collectFileMatches_In. exists fo. split; [exact Hfo |].
    apply fileMatchOf_Some. exact Hd.
Qed.

End Reported.

(** C8. No document of a report is one of the two result pages, whatever
    the tool's output says about them. *)
Theorem reserved_pages_never_reported {RT : JSRuntime}
  (host : Host) (a : GrepArgs) (docs : list FileMatch) :
  fst (grepFileMatches host a) = Return (Some docs) ->
  fst (grep host a) = Return (Some (renderReport a docs))
  /\ Forall
       (fun d => page d <> resultPageSaved /\ page d <> resultPageVirtual)
       docs.
Proof.
  intros H. split.
  - apply grep_report. exists docs. auto.
  - apply grepFileMatches_inv in H.
    destruct H as [output [re [_ [_ [_ ->]]]]].
    apply Forall_forall. intros d Hd.
    apply ranked_In in Hd. destruct Hd as [fo [_ [Hacc _]]].
    apply acceptedPage_Some in Hacc. tauto.
Qed.

Lemma reserved_pages_never_reported_witness :
  fst (grep (RT := SmallRuntime.runtime)
         (Sample.hostOf Sample.config0 (ShellOk Sample.outputWithResultPages))
         Sample.todo)
  = Return
      (Some
         (renderReport (RT := SmallRuntime.runtime) Sample.todo
            (ranked (RT := SmallRuntime.runtime) Sample.config0
               Sample.todoRegExp Sample.outputWithResultPages)))
  /\ Forall
       (fun d => page d <> resultPageSaved /\ page d <> resultPageVirtual)
       (ranked (RT := SmallRuntime.runtime) Sample.config0
          Sample.todoRegExp Sample.outputWithResultPages).
Proof.
  apply (@reserved_pages_never_reported SmallRuntime.runtime
           (Sample.hostOf Sample.config0
              (ShellOk Sample.outputWithResultPages))
           Sample.todo).
  vm_compute. reflexivity.
Defined.

(** Of the three groups of that output only [notes/b] is reported. *)
Example reserved_pages_sample :
  map page
    (ranked (RT := SmallRuntime.runtime) Sample.config0 Sample.todoRegExp
       Sample.outputWithResultPages)
  = [lit "notes/b"].
Proof. vm_compute. reflexivity. Qed.

(** ** The folder filter *)

(** What [shouldIgnoreFolder] decides, on the normalized folder path and the
    normalized patterns. *)
Lemma shouldIgnoreFolder_spec (folderPath : jsstring) (config : GrepConfig) :
  shouldIgnoreFolder folderPath config = true <->
  exists folders ignorePattern,
    ignoreFolders config = Some folders
    /\ In ignorePattern folders
    /\ (normalizePath folderPath = normalizePath ignorePattern
        \/ exists base rest,
             normalizePath ignorePattern = base ++ lit "/*"
             /\ normalizePath folderPath = base ++ rest).
Proof.
  unfold shouldIgnoreFolder.
  destruct (ignoreFolders config) as [folders|].
  2: { split; [discriminate | intros [f [x [E _]]]; discriminate]. }
  rewrite existsb_exists. split.
  - intros [x [Hin Hx]]. exists folders, x.
    split; [reflexivity | split; [exact Hin |]].
    destruct (endsWith (normalizePath x) (lit "/*")) eqn:He.
    + right. apply endsWith_spec in He. destruct He as [base Hb].
      rewrite Hb in Hx.
      change 2 with (length (lit "/*")) in Hx.
      rewrite sliceDropLast_app in Hx.
      apply startsWith_spec in Hx. destruct Hx as [rest Hr].
      exists base, rest. auto.
    + left. apply eqb_eq. exact Hx.
  - intros [f [x [E [Hin Hx]]]]. inversion E; subst f. exists x.
    split; [exact Hin |].
    destruct (endsWith (normalizePath x) (lit "/*")) eqn:He.
    + apply endsWith_spec in He. destruct He as [base Hb].
      rewrite Hb. change 2 with (length (lit "/*")).
      rewrite sliceDropLast_app. apply startsWith_spec.
      destruct Hx as [Hx | [base' [rest [Hb' Hr]]]].
      * exists (lit "/*"). congruence.
      * rewrite Hb in Hb'. apply app_inv_tail in Hb'. subst base'.
        exists rest. exact Hr.
    + destruct Hx as [Hx | [base [rest [Hb _]]]].
      * apply eqb_eq. exact Hx.
      * assert (Ht : endsWith (normalizePath x) (lit "/*") = true)
          by (apply endsWith_spec; exists base; exact Hb).
        congruence.
Qed.

(** C4 (amended). For a normalized folder path, the document is excluded
    exactly when the path equals some ignore-pattern after that pattern's
    own normalization (backslashes turned into slashes, a leading [./]
    dropped), or some normalized ignore-pattern ends in [/*] and the path
    starts with what comes before that suffix.  No document of a report lies
    in a folder the filter excludes. *)
Theorem folder_filter_on_normalized_patterns {RT : JSRuntime}
  (folderPath : jsstring) (config : GrepConfig) :
  normalizePath folderPath = folderPath ->
  (shouldIgnoreFolder folderPath config = true <->
   exists folders ignorePattern,
     ignoreFolders config = Some folders
     /\ In ignorePattern folders
     /\ (folderPath = normalizePath ignorePattern
         \/ exists base rest,
              normalizePath ignorePattern = base ++ lit "/*"
              /\ folderPath = base ++ rest))
  /\ (forall host a docs,
        getSpaceConfig host = config ->
        fst (grepFileMatches host a) = Return (Some docs) ->
        Forall
          (fun d => shouldIgnoreFolder (folderPathOf (page d)) config = false)
          docs).
Proof.
  intros Hn. split.
  - rewrite shouldIgnoreFolder_spec, Hn. reflexivity.
  - intros host a docs <- H.
    apply grepFileMatches_inv in H.
    destruct H as [output [re [_ [_ [_ ->]]]]].
    apply Forall_forall. intros d Hd.
    apply ranked_In in Hd. destruct Hd as [fo [_ [Hacc _]]].
    apply acceptedPage_Some in Hacc. tauto.
Qed.

Lemma folder_filter_on_normalized_patterns_witness :
  (shouldIgnoreFolder (lit "archive/old/")
     (Sample.ignoring [lit "./archive/*"]) = true <->
   exists folders ignorePattern,
     ignoreFolders (Sample.ignoring [lit "./archive/*"]) = Some folders
     /\ In ignorePattern folders
     /\ (lit "archive/old/" = normalizePath ignorePattern
         \/ exists base rest,
              normalizePath ignorePattern = base ++ lit "/*"
              /\ lit "archive/old/" = base ++ rest))
  /\ (forall host a docs,
        getSpaceConfig host = Sample.ignoring [lit "./archive/*"] ->
        fst (grepFileMatches (RT := SmallRuntime.runtime) host a)
          = Return (Some docs) ->
        Forall
          (fun d =>
             shouldIgnoreFolder (folderPathOf (page d))
               (Sample.ignoring [lit "./archive/*"]) = false)
          docs).
Proof.
  apply (@folder_filter_on_normalized_patterns SmallRuntime.runtime
           (lit "archive/old/") (Sample.ignoring [lit "./archive/*"])).
  reflexivity.
Defined.

(** C4 as stated fails: the pattern [./archive/*] excludes the folder
    [archive/old/], a normalized path that neither equals the pattern as
    written nor starts with [./archive]. *)
Lemma folder_filter_raw_pattern_counterexample :
  normalizePath (lit "archive/old/") = lit "archive/old/"
  /\ shouldIgnoreFolder (lit "archive/old/")
       (Sample.ignoring [lit "./archive/*"]) = true
  /\ ~ excludedAsWritten (lit "archive/old/") [lit "./archive/*"].
Proof.
  split; [reflexivity | split; [reflexivity |]].
  intros [p [[<- | []] [E | [base [rest [E1 E2]]]]]].
  - discriminate.
  - destruct base as [|c base].
    + discriminate.
    + inversion E1. inversion E2. congruence.
Qed.

(** With that configuration the archived document of the sample output is
    left out of the report. *)
Example folder_filter_sample :
  map page
    (ranked (RT := SmallRuntime.runtime)
       (Sample.ignoring [lit "./archive/*"]) Sample.todoRegExp
       Sample.outputArchive)
  = [lit "notes/b"].
Proof. vm_compute. reflexivity. Qed.

(** ** Documents without a match *)

Lemma flat_map_nil_iff (A B : Type) (f : A -> list B) (l : list A) :
  flat_map f l = [] <-> forall x, In x l -> f x = [].
Proof.
  induction l as [|y l IH]; simpl.
  - split; [intros _ x [] | reflexivity].
  - split.
    + intros E. apply app_eq_nil in E. destruct E as [Ey El].
      intros x [<- | Hx]; [exact Ey | apply IH; assumption].
    + intros H. rewrite (H y (or_introl eq_refl)).
      apply IH. intros x Hx. apply H. right. exact Hx.
Qed.

(** C6 (amended). The documents of a report are exactly the groups of the
    tool's output whose header passes the filters, each with the matches
    found on its lines: a document has no match exactly when none of its
    lines yields one, and it is reported all the same, with an empty list
    of matches. *)
Theorem report_lists_every_accepted_document {RT : JSRuntime}
  (host : Host) (a : GrepArgs) (docs : list FileMatch) :
  fst (grepFileMatches host a) = Return (Some docs) ->
  exists output innerRegex,
    shell_run host (lit "git") (gitArgs (getSpaceConfig host) a)
      = ShellOk output
    /\ RegExp_new (innerRegexSource a)
         (innerRegexFlags (getSpaceConfig host) a) = Some innerRegex
    /\ (forall d,
          In d docs <->
          exists fileOutput,
            In fileOutput (split output (nl ++ nl))
            /\ acceptedPage (getSpaceConfig host) (split fileOutput nl)
               = Some (page d)
            /\ matches d
               = flat_map (refineLine (getSpaceConfig host) innerRegex)
                   (tl (split fileOutput nl)))
    /\ (forall fileOutput pg,
          In fileOutput (split output (nl ++ nl)) ->
          acceptedPage (getSpaceConfig host) (split fileOutput nl) = Some pg ->
          (forall line,
             In line (tl (split fileOutput nl)) ->
             refineLine (getSpaceConfig host) innerRegex line = []) ->
          In {| page := pg; matches := [] |} docs)
    /\ (forall d,
          In d docs ->
          matches d <> [] ->
          exists fileOutput line,
            In fileOutput (split output (nl ++ nl))
            /\ In line (tl (split fileOutput nl))
            /\ refineLine (getSpaceConfig host) innerRegex line <> []).
Proof.
  intros H. apply grepFileMatches_inv in H.
  destruct H as [output [re [Hrun [_ [Hre ->]]]]].
  exists output, re.
  split; [exact Hrun | split; [exact Hre | split; [| split]]].
  - intros d. apply ranked_In.
  - intros fo pg Hfo Hacc Hnone. apply ranked_In. exists fo. simpl.
    split; [exact Hfo | split; [exact Hacc |]].
    symmetry. apply flat_map_nil_iff. exact Hnone.
  - intros d Hd Hne. apply ranked_In in Hd.
    destruct Hd as [fo [Hfo [_ Hm]]].
    rewrite Hm in Hne.
    assert (Hex : exists line,
               In line (tl (split fo nl))
               /\ refineLine (getSpaceConfig host) re line <> []).
    { clear Hm. induction (tl (split fo nl)) as [|l ls IH]; simpl in Hne.
      - congruence.
      - destruct (refineLine (getSpaceConfig host) re l) eqn:El.
        + destruct (IH Hne) as [line [Hin Hl]].
          exists line. split; [right; exact Hin | exact Hl].
        + exists l. split; [left; reflexivity | congruence]. }
    destruct Hex as [line [Hin Hl]]. exists fo, line. auto.
Qed.

(** C6 as stated fails: for the pattern [\<todo], [git grep -E] reports the
    line [a todo item] ([\<] is the start of a word there); the JavaScript
    expression looks for the character [<] before [todo] and finds nothing,
    and the report lists [notes/a] with no match. *)
Lemma report_with_empty_document_counterexample :
  fst (grepFileMatches (RT := SmallRuntime.runtime)
         (Sample.hostOf Sample.config0 (ShellOk Sample.outputA))
         Sample.wordStart)
  = Return (Some [{| page := lit "notes/a"; matches := [] |}])
  /\ fst (grep (RT := SmallRuntime.runtime)
            (Sample.hostOf Sample.config0 (ShellOk Sample.outputA))
            Sample.wordStart)
     = Return
         (Some
            (lit "Search results for pattern **`" ++ [backslash]
               ++ lit "<todo`**" ++ nl ++ nl
               ++ lit "## [[notes/a]] (0 match)" ++ nl ++ nl ++ lit "    ")).
Proof. split; vm_compute; reflexivity. Qed.

Lemma report_lists_every_accepted_document_witness :
  exists output innerRegex,
    ShellOk Sample.outputA = ShellOk output
    /\ RegExp_new (JSRuntime := SmallRuntime.runtime)
         (innerRegexSource Sample.wordStart)
         (innerRegexFlags (RT := SmallRuntime.runtime) Sample.config0
            Sample.wordStart) = Some innerRegex
    /\ (forall d,
          In d [{| page := lit "notes/a"; matches := [] |}] <->
          exists fileOutput,
            In fileOutput (split output (nl ++ nl))
            /\ acceptedPage Sample.config0 (split fileOutput nl)
               = Some (page d)
            /\ matches d
               = flat_map
                   (refineLine (RT := SmallRuntime.runtime) Sample.config0
                      innerRegex)
                   (tl (split fileOutput nl)))
    /\ (forall fileOutput pg,
          In fileOutput (split output (nl ++ nl)) ->
          acceptedPage Sample.config0 (split fileOutput nl) = Some pg ->
          (forall line,
             In line (tl (split fileOutput nl)) ->
             refineLine (RT := SmallRuntime.runtime) Sample.config0
               innerRegex line = []) ->
          In {| page := pg; matches := [] |}
            [{| page := lit "notes/a"; matches := [] |}])
    /\ (forall d,
          In d [{| page := lit "notes/a"; matches := [] |}] ->
          matches d <> [] ->
          exists fileOutput line,
            In fileOutput (split output (nl ++ nl))
            /\ In line (tl (split fileOutput nl))
            /\ refineLine (RT := SmallRuntime.runtime) Sample.config0
                 innerRegex line <> []).
Proof.
  apply (@report_lists_every_accepted_document SmallRuntime.runtime
           (Sample.hostOf Sample.config0 (ShellOk Sample.outputA))
           Sample.wordStart
           [{| page := lit "notes/a"; matches := [] |}]).
  vm_compute. reflexivity.
Defined.

(** ** Occurrences on a line *)

Section MatchAll.
Context {RT : JSRuntime}.
Variable r : RegExp.
Variable s : jsstring.

Lemma exec_scan_Some (k i index e : nat) :
  exec_scan r s k i = Some (index, e) ->
  i <= index < i + k
  /\ RegExp_matcher r s index = Some e
  /\ forall j, i <= j < index -> RegExp_matcher r s j = None.
Proof.
  revert i; induction k as [|k IH]; intros i; simpl; [discriminate |].
  destruct (RegExp_matcher r s i) as [e'|] eqn:Hm.
  - intros E. inversion E; subst.
    split; [lia | split; [exact Hm |]]. intros j Hj. lia.
  - intros E. apply IH in E. destruct E as [Hr [He Hnone]].
    split; [lia | split; [exact He |]].
    intros j Hj. destruct (Nat.eq_dec j i) as [-> | Hne]; [exact Hm |].
    apply Hnone. lia.
Qed.

Lemma exec_scan_None (k i : nat) :
  exec_scan r s k i = None ->
  forall j, i <= j < i + k -> RegExp_matcher r s j = None.
Proof.
  revert i; induction k as [|k IH]; intros i; simpl.
  - intros _ j Hj. lia.
  - destruct (RegExp_matcher r s i) as [e'|] eqn:Hm; [discriminate |].
    intros E j Hj. destruct (Nat.eq_dec j i) as [-> | Hne]; [exact Hm |].
    apply (IH (S i) E). lia.
Qed.

(** The loop computes the occurrences, given fuel for every index left. *)
Lemma matchAll_loop_Occurrences (fuel lastIndex : nat) :
  length s + 2 <= fuel + lastIndex ->
  Occurrences r s lastIndex (matchAll_loop fuel r s lastIndex).
Proof.
  revert lastIndex; induction fuel as [|fuel IH]; intros lastIndex Hf;
    cbn [matchAll_loop].
  - constructor. intros j Hj. lia.
  - unfold RegExpBuiltinExec.
    destruct (exec_scan r s (S (length s) - lastIndex) lastIndex)
      as [[index e]|] eqn:Hx.
    + apply exec_scan_Some in Hx. destruct Hx as [Hr [He Hnone]].
      pose proof (RegExp_matcher_end _ _ _ He) as Hb.
      constructor; try assumption; [lia |].
      apply IH. destruct (Nat.eqb e index) eqn:Heq; [lia |].
      apply Nat.eqb_neq in Heq. lia.
    + constructor. intros j Hj.
      eapply exec_scan_None; [exact Hx | lia].
Qed.

Lemma Occurrences_functional (lastIndex : nat) (l1 l2 : list (nat * nat)) :
  Occurrences r s lastIndex l1 -> Occurrences r s lastIndex l2 -> l1 = l2.
Proof.
  intros H1; revert l2.
  induction H1 as [i Hnone | i index e rest Hle He Hnone Hrest IH];
    intros l2 H2; inversion H2 as [i' Hnone' | i' index' e' rest' Hle' He' Hnone' Hrest']; subst.
  - reflexivity.
  - pose proof (RegExp_matcher_end _ _ _ He') as Hb.
    rewrite Hnone in He' by lia. discriminate.
  - pose proof (RegExp_matcher_end _ _ _ He) as Hb.
    rewrite Hnone' in He by lia. discriminate.
  - assert (index = index').
    { destruct (Nat.lt_trichotomy index index') as [Hlt | [Heq | Hgt]];
        [| exact Heq |].
      - rewrite Hnone' in He by lia. discriminate.
      - rewrite Hnone in He' by lia. discriminate. }
    subst index'. rewrite He in He'. inversion He'; subst e'.
    f_equal. apply IH. exact Hrest'.
Qed.

(** More fuel changes nothing. *)
Lemma matchAll_loop_fuel (fuel : nat) :
  length s + 2 <= fuel -> matchAll_loop fuel r s 0 = matchAll s r.
Proof.
  intros Hf. apply (Occurrences_functional (lastIndex := 0)).
  - apply matchAll_loop_Occurrences. lia.
  - apply matchAll_loop_Occurrences. lia.
Qed.

Lemma Occurrences_are_matches (lastIndex : nat) (l : list (nat * nat)) :
  Occurrences r s lastIndex l ->
  Forall
    (fun o =>
       RegExp_matcher r s (fst o) = Some (snd o)
       /\ lastIndex <= fst o <= snd o /\ snd o <= length s)
    l.
Proof.
  induction 1 as [i Hnone | i index e rest Hle He Hnone Hrest IH].
  - constructor.
  - pose proof (RegExp_matcher_end _ _ _ He) as Hb.
    constructor; [simpl; split; [exact He | lia] |].
    eapply Forall_impl; [| exact IH].
    intros o [Ho Hr]. split; [exact Ho |].
    destruct (Nat.eqb e index); lia.
Qed.

Lemma Occurrences_apart (lastIndex : nat) (l : list (nat * nat)) :
  Occurrences r s lastIndex l ->
  StronglySorted (fun o1 o2 => snd o1 <= fst o2 /\ fst o1 < fst o2) l.
Proof.
  induction 1 as [i Hnone | i index e rest Hle He Hnone Hrest IH].
  - constructor.
  - pose proof (RegExp_matcher_end _ _ _ He) as Hb.
    constructor; [exact IH |].
    apply Occurrences_are_matches in Hrest.
    eapply Forall_impl; [| exact Hrest].
    intros o [_ Hr]. simpl.
    destruct (Nat.eqb e index) eqn:Heq.
    + apply Nat.eqb_eq in Heq. lia.
    + apply Nat.eqb_neq in Heq. lia.
Qed.

Lemma Occurrences_complete (lastIndex : nat) (l : list (nat * nat)) :
  Occurrences r s lastIndex l ->
  forall j,
    lastIndex <= j <= length s ->
    RegExp_matcher r s j <> None ->
    exists o, In o l /\ (fst o = j \/ fst o < j < snd o).
Proof.
  induction 1 as [i Hnone | i index e rest Hle He Hnone Hrest IH];
    intros j Hj Hm.
  - exfalso. apply Hm. apply Hnone. exact Hj.
  - pose proof (RegExp_matcher_end _ _ _ He) as Hb.
    destruct (Nat.lt_trichotomy j index) as [Hlt | [-> | Hgt]].
    + exfalso. apply Hm. apply Hnone. lia.
    + exists (index, e). split; [left; reflexivity | left; reflexivity].
    + destruct (Nat.lt_ge_cases j e) as [Hin | Hout].
      * exists (index, e). split; [left; reflexivity | right; simpl; lia].
      * destruct (IH j) as [o [Ho Hc]]; [| exact Hm |].
        -- destruct (Nat.eqb e index) eqn:Heq; [| lia].
           apply Nat.eqb_eq in Heq. lia.
        -- exists o. split; [right; exact Ho | exact Hc].
Qed.

Lemma matchAll_Occurrences : Occurrences r s 0 (matchAll s r).
Proof. apply matchAll_loop_Occurrences. lia. Qed.

End MatchAll.

Lemma substring_prefix (s : jsstring) (i : nat) :
  i <= length s -> substring s 0 i = firstn i s.
Proof.
  intros H. unfold substring. cbv zeta.
  replace (Nat.min (Nat.min 0 i) (length s)) with 0 by lia.
  replace (Nat.min (Nat.max 0 i) (length s)) with i by lia.
  rewrite Nat.sub_0_r. reflexivity.
Qed.

Lemma substring_middle (s : jsstring) (i e : nat) :
  i <= e -> e <= length s ->
  substring s i e = firstn (e - i) (skipn i s).
Proof.
  intros H1 H2. unfold substring. cbv zeta.
  replace (Nat.min (Nat.min i e) (length s)) with i by lia.
  replace (Nat.min (Nat.max i e) (length s)) with e by lia.
  reflexivity.
Qed.

(** C2. Re-scanning a context line gives one [Match] per occurrence that
    [matchAll] reports, in order: its column is the occurrence's start
    offset plus one, and its context is the text before the occurrence, the
    left marker, the matched text, the right marker and the text after.
    The occurrences reported are matches of the expression, each starts at
    or after the end of the one before and strictly after its start, and
    none is left out: every index where the expression matches is the start
    of a reported occurrence or lies inside one. *)
Theorem refined_matches_per_occurrence {RT : JSRuntime}
  (config : GrepConfig) (innerRegex : RegExp) (ln : JSNumber)
  (ctx : jsstring) :
  let occurrences := matchAll ctx innerRegex in
  Forall2
    (fun o m =>
       lineNum m = ln
       /\ columnNum m = fst o + 1
       /\ context m
          = firstn (fst o) ctx ++ surroundLeftOf config
              ++ firstn (snd o - fst o) (skipn (fst o) ctx)
              ++ surroundRightOf config ++ skipn (snd o) ctx)
    occurrences (refineContext config innerRegex ln ctx)
  /\ Forall
       (fun o =>
          RegExp_matcher innerRegex ctx (fst o) = Some (snd o)
          /\ fst o <= snd o <= length ctx)
       occurrences
  /\ StronglySorted
       (fun o1 o2 => snd o1 <= fst o2 /\ fst o1 < fst o2) occurrences
  /\ (forall j,
        j <= length ctx ->
        RegExp_matcher innerRegex ctx j <> None ->
        exists o, In o occurrences /\ (fst o = j \/ fst o < j < snd o)).
Proof.
  cbv zeta.
  pose proof (matchAll_Occurrences innerRegex ctx) as Hocc.
  pose proof (Occurrences_are_matches Hocc) as Hm.
  split; [| split; [| split]].
  - unfold refineContext. clear Hocc.
    induction Hm as [|o l Ho Hl IH]; simpl; [constructor |].
    constructor; [| exact IH].
    destruct Ho as [_ [Hb1 Hb2]]. simpl.
    split; [reflexivity | split; [reflexivity |]].
    unfold surrounded, join, substringFrom.
    rewrite substring_prefix by lia.
    rewrite substring_middle by lia.
    rewrite app_nil_l. reflexivity.
  - eapply Forall_impl; [| exact Hm]. intros o [Ho Hb]. split; [exact Ho | lia].
  - exact (Occurrences_apart Hocc).
  - intros j Hj Hne. apply (Occurrences_complete Hocc); [lia | exact Hne].
Qed.

(** The line [another TODO here todo] holds the word at offsets 8 and 18:
    two matches, at columns 9 and 19, each wrapped in its own copy of the
    line. *)
Example refine_two_occurrences :
  refineContext (RT := SmallRuntime.runtime) Sample.config0
    Sample.todoRegExp (Finite 2) (lit "another TODO here todo")
  = [ {| lineNum := Finite 2; columnNum := 9;
         context := lit "another >>>TODO<<< here todo" |};
      {| lineNum := Finite 2; columnNum := 19;
         context := lit "another TODO here >>>todo<<<" |} ].
Proof. vm_compute. reflexivity. Qed.

(** Occurrences that overlap are counted once: [aa] in [aaaaa] is found at
    offsets 0 and 2. *)
Example refine_overlapping :
  matchAll (RT := SmallRuntime.runtime) (lit "aaaaa")
    {| SmallRuntime.units := lit "aa"; SmallRuntime.ignoreCase := false |}
  = [(0, 2); (2, 4)].
Proof. vm_compute. reflexivity. Qed.

(** The line of the tool's output [12:5:a todo] has line number 12 and
    context [a todo]. *)
Example line_parts :
  locationMatch (lit "12:5:a todo") = true
  /\ lineNumOf (RT := SmallRuntime.runtime) (lit "12:5:a todo") = Finite 12
  /\ contextOf (RT := SmallRuntime.runtime) (lit "12:5:a todo")
     = lit "a todo".
Proof. vm_compute. auto. Qed.

(** ** Literal search in the small runtime *)

Lemma special_is_not_word (c : N) :
  isRegExpSpecial c = true -> SmallRuntime.isWordUnit c = false.
Proof.
  unfold isRegExpSpecial. rewrite existsb_exists.
  intros [x [Hin Hx]]. apply N.eqb_eq in Hx. subst x.
  simpl in Hin.
  repeat (destruct Hin as [<- | Hin]; [reflexivity |]).
  contradiction.
Qed.

(** The expression built from an escaped text matches that text itself. *)
Lemma unescape_escapeRegExp (text : jsstring) :
  SmallRuntime.unescape (escapeRegExp text) = Some text.
Proof.
  induction text as [|c text IH]; [reflexivity |].
  unfold escapeRegExp in *. cbn [flat_map].
  destruct (isRegExpSpecial c) eqn:Hc.
  - cbn [app SmallRuntime.unescape].
    rewrite N.eqb_refl, (special_is_not_word _ Hc), IH. reflexivity.
  - cbn [app SmallRuntime.unescape].
    destruct (N.eqb c backslash) eqn:Hb.
    + apply N.eqb_eq in Hb. subst c. discriminate.
    + rewrite Hc, IH. reflexivity.
Qed.

(** ** Two searches from start to end *)

(** A literal search for [todo] with the default configuration: the
    lower-case pattern makes the search case-insensitive, both lines of
    [notes/a] match, and each match is wrapped in the default markers. *)
Example search_todo :
  grep (RT := SmallRuntime.runtime)
    (Sample.hostOf Sample.config0
       (ShellOk (lit "notes/a.md" ++ nl ++ lit "1:3:a todo item" ++ nl
                   ++ lit "2:9:another TODO here")))
    Sample.todo
  = (Return
       (Some
          (lit "Search results for text **`todo`**" ++ nl ++ nl
             ++ lit "## [[notes/a]] (2 matches)" ++ nl
             ++ lit "* [[notes/a@L1C3|L1C3]]: a >>>todo<<< item" ++ nl
             ++ lit "* [[notes/a@L2C9|L2C9]]: another >>>TODO<<< here" ++ nl
             ++ lit "    ")),
     []).
Proof. vm_compute. reflexivity. Qed.

(** The same search for [TODO] inside [notes/]: the upper-case pattern makes
    it case-sensitive, and [git] is not given [--ignore-case]. *)
Example search_TODO_in_folder :
  let a := {| pattern := lit "TODO"; literal := true;
              folder := lit "notes/" |} in
  gitArgs (RT := SmallRuntime.runtime) Sample.config0 a
  = [ lit "-c"; lit "core.quotePath=false"; lit "grep"; lit "--heading";
      lit "--break"; lit "--line-number"; lit "--column"; lit "--no-color";
      lit "--no-index"; lit "--fixed-strings"; lit "TODO"; lit "--";
      lit "notes/*.md" ]
  /\ grep (RT := SmallRuntime.runtime)
       (Sample.hostOf Sample.config0
          (ShellOk (lit "notes/a.md" ++ nl ++ lit "2:9:another TODO here")))
       a
     = (Return
          (Some
             (lit "Search results for text **`TODO`**" ++ nl
                ++ lit "**found inside folder:** notes/" ++ nl ++ nl ++ nl
                ++ lit "## [[notes/a]] (1 match)" ++ nl
                ++ lit "* [[notes/a@L2C9|L2C9]]: another >>>TODO<<< here"
                ++ nl ++ lit "    ")),
        []).
Proof. split; vm_compute; reflexivity. Qed.

(** A missing [git] and an empty output, run through [openGrep] with
    [saveResults] on: the notification is flashed, the editor stays where it
    was and nothing is stored. *)
Example search_failures :
  let saving :=
    {| smartCase := None; surround := None; saveResults := Some true;
       ignoreFolders := None |} in
  openGrep (RT := SmallRuntime.runtime) (Sample.hostOf saving ShellThrows)
    Sample.todo Sample.emptyWorld
  = (Return tt,
     {| stored := None; currentPage := lit "notes/today"; editorText := [];
        flashed := [gitErrorNotification] |})
  /\ openGrep (RT := SmallRuntime.runtime)
       (Sample.hostOf saving (ShellOk [])) Sample.todo Sample.emptyWorld
     = (Return tt,
        {| stored := None; currentPage := lit "notes/today";
           editorText := [];
           flashed :=
             [{| message :=
                   lit "Text " ++ dq ++ lit "todo" ++ dq
                     ++ lit " produced no results";
                 type := None |}] |}).
Proof. split; vm_compute; reflexivity. Qed.

(** * Further properties of the code *)

(** ** Lines of the tool's output *)

(** Reading a run of digits, as [parseInt] does. *)
Lemma parseInt_go_digits (ds t : jsstring) (a : nat) :
  Forall (fun c => isDigit c = true) ds ->
  parseInt_go a (ds ++ t)
  = parseInt_go
      (fold_left (fun acc c => 10 * acc + N.to_nat (c - 48)) ds a) t.
Proof.
  intros H; revert a; induction H as [|c ds Hc _ IH]; intros a.
  - reflexivity.
  - cbn [app parseInt_go fold_left]. rewrite Hc. apply IH.
Qed.

(** The digits [toString] writes, and the number they read back as. *)
Lemma digits_go_spec (fuel n : nat) :
  n < fuel ->
  exists ds,
    (forall acc, digits_go fuel n acc = ds ++ acc)
    /\ ds <> []
    /\ Forall (fun c => isDigit c = true) ds
    /\ forall a,
         fold_left (fun acc c => 10 * acc + N.to_nat (c - 48)) ds a
         = a * 10 ^ length ds + n.
Proof.
  revert n; induction fuel as [|fuel IH]; intros n Hn; [lia |].
  assert (Hd : forall m, m < 10 ->
                 isDigit (48 + N.of_nat m) = true
                 /\ N.to_nat (48 + N.of_nat m - 48) = m).
  { intros m Hm. split.
    - unfold isDigit. apply andb_true_iff.
      split; apply N.leb_le; lia.
    - lia. }
  cbn [digits_go]. destruct (Nat.ltb n 10) eqn:Hlt.
  - apply Nat.ltb_lt in Hlt.
    assert (Hmod : n mod 10 = n) by (apply Nat.mod_small; exact Hlt).
    rewrite Hmod. destruct (Hd n Hlt) as [H1 H2].
    exists [(48 + N.of_nat n)%N].
    split; [reflexivity | split; [discriminate | split]].
    + constructor; [exact H1 | constructor].
    + intros a. cbn [fold_left length]. rewrite H2. simpl. lia.
  - apply Nat.ltb_ge in Hlt.
    assert (Hq : n / 10 < fuel).
    { assert (n / 10 < n) by (apply Nat.div_lt; lia). lia. }
    destruct (IH (n / 10) Hq) as [ds [Hgo [Hne [Hall Hval]]]].
    assert (Hm : n mod 10 < 10) by (apply Nat.mod_upper_bound; lia).
    destruct (Hd (n mod 10) Hm) as [H1 H2].
    exists (ds ++ [(48 + N.of_nat (n mod 10))%N]).
    split; [| split; [| split]].
    + intros acc. rewrite Hgo, <- app_assoc. reflexivity.
    + destruct ds; discriminate.
    + apply Forall_app. split; [exact Hall |].
      constructor; [exact H1 | constructor].
    + intros a. rewrite fold_left_app. cbn [fold_left].
      rewrite Hval, H2, length_app. cbn [length].
      rewrite Nat.pow_add_r.
      pose proof (Nat.div_mod_eq n 10) as Hdm.
      change (10 ^ 1) with 10. set (p := 10 ^ length ds). lia.
Qed.

Lemma toString_spec (n : nat) :
  toString n <> []
  /\ Forall (fun c => isDigit c = true) (toString n)
  /\ forall t, parseInt_go 0 (toString n ++ t) = parseInt_go n t.
Proof.
  unfold toString.
  destruct (digits_go_spec (fuel := S n) (n := n)) as [ds [Hgo [Hne [Hall Hval]]]];
    [lia |].
  rewrite Hgo, app_nil_r.
  split; [exact Hne | split; [exact Hall |]].
  intros t. rewrite parseInt_go_digits by exact Hall.
  rewrite Hval. reflexivity.
Qed.

Lemma digit_is_not_colon (ds : jsstring) :
  Forall (fun c => isDigit c = true) ds -> ~ In 58%N ds.
Proof.
  intros H Hin. rewrite Forall_forall in H. apply H in Hin. discriminate.
Qed.

(** Up to its first colon a string is the first piece of [split(":")]. *)
Lemma split_colon_head (d rest cur : jsstring) :
  ~ In 58%N d ->
  split_go (lit ":") 0 cur (d ++ 58%N :: rest)
  = (rev cur ++ d) :: split_go (lit ":") 0 [] rest.
Proof.
  revert cur; induction d as [|c d IH]; intros cur Hd.
  - cbn. rewrite app_nil_r. reflexivity.
  - assert (Hc : N.eqb c 58 = false).
    { apply N.eqb_neq. intros ->. apply Hd. left. reflexivity. }
    change ((c :: d) ++ 58%N :: rest) with (c :: (d ++ 58%N :: rest)).
    cbn [split_go]. cbn [lit startsWith map list_ascii_of_string N_of_ascii].
    change (N_of_digits _) with 58%N.
    rewrite Hc. cbn [andb].
    rewrite IH by (intros Hin; apply Hd; right; exact Hin).
    cbn [rev]. rewrite <- app_assoc. reflexivity.
Qed.

Lemma dropDigits_digits (ds t : jsstring) :
  Forall (fun c => isDigit c = true) ds ->
  dropDigits (ds ++ 58%N :: t) = 58%N :: t.
Proof.
  induction 1 as [|c ds Hc _ IH]; [reflexivity |].
  cbn [app dropDigits]. rewrite Hc. exact IH.
Qed.

Lemma digitsThenColon_digits (ds t : jsstring) :
  ds <> [] ->
  Forall (fun c => isDigit c = true) ds ->
  digitsThenColon (ds ++ 58%N :: t) = Some t.
Proof.
  intros Hne Hall. destruct Hall as [|c ds Hc Hds]; [congruence |].
  cbn [app digitsThenColon]. rewrite Hc.
  rewrite dropDigits_digits by exact Hds. reflexivity.
Qed.

(** X1. A line written the way [git grep] writes it, a line number below
    2^53, a colon, the column, a colon and the text of the line, passes the
    location test and is read back exactly: [lineNum] is the line number and
    the context is the text, also when the text holds colons or digits.
    (From 2^53 on the line number is rounded to a double, and written back
    it may take more code units than it took in the line.) *)
Theorem location_line_roundtrip {RT : JSRuntime}
  (n col : nat) (text : jsstring) :
  (Z.of_nat n < 2 ^ 53)%Z ->
  let line := toString n ++ lit ":" ++ toString col ++ lit ":" ++ text in
  locationMatch line = true
  /\ lineNumOf line = Finite (Z.of_nat n)
  /\ contextOf line = text.
Proof.
  intros Hsafe. cbv zeta.
  destruct (toString_spec n) as [Hn1 [Hn2 Hn3]].
  destruct (toString_spec col) as [Hc1 [Hc2 Hc3]].
  change (lit ":") with [58%N]. cbn [app].
  assert (Hsplit :
            split (toString n ++ 58%N :: toString col ++ 58%N :: text) [58%N]
            = toString n :: toString col :: split text [58%N]).
  { unfold split. change [58%N] with (lit ":").
    rewrite split_colon_head by (apply digit_is_not_colon; exact Hn2).
    rewrite split_colon_head by (apply digit_is_not_colon; exact Hc2).
    reflexivity. }
  assert (Hval : parseInt (toString n) = n).
  { unfold parseInt. rewrite <- (app_nil_r (toString n)).
    rewrite Hn3. reflexivity. }
  assert (Hl : lineNumOf (toString n ++ 58%N :: toString col ++ 58%N :: text)
               = Finite (Z.of_nat n)).
  { unfold lineNumOf. change (lit ":") with [58%N]. rewrite Hsplit.
    unfold at_. cbn [nth].
    rewrite Number_parseInt_safe; rewrite ?Hval; auto. }
  split; [| split; [exact Hl |]].
  - unfold locationMatch.
    rewrite digitsThenColon_digits by assumption.
    rewrite digitsThenColon_digits by assumption. reflexivity.
  - unfold contextOf. rewrite Hl.
    rewrite Number_toString_safe by exact Hsafe.
    change (lit ":") with [58%N]. rewrite Hsplit.
    unfold at_, substringFrom. cbn [nth].
    replace (toString n ++ 58%N :: toString col ++ 58%N :: text)
      with ((toString n ++ 58%N :: toString col ++ [58%N]) ++ text)
      by (rewrite <- !app_assoc; cbn [app];
          rewrite <- !app_assoc; reflexivity).
    rewrite skipn_app.
    replace (length (toString n) + length (toString col) + 2)
      with (length (toString n ++ 58%N :: toString col ++ [58%N]))
      by (rewrite length_app; cbn [length]; rewrite length_app;
          cbn [length]; lia).
    rewrite skipn_all, Nat.sub_diag. reflexivity.
Qed.

Lemma location_line_roundtrip_witness :
  let line := toString 12 ++ lit ":" ++ toString 5 ++ lit ":"
                ++ lit "a todo: 3" in
  locationMatch line = true
  /\ lineNumOf (RT := SmallRuntime.runtime) line = Finite (Z.of_nat 12)
  /\ contextOf (RT := SmallRuntime.runtime) line = lit "a todo: 3".
Proof.
  apply (@location_line_roundtrip SmallRuntime.runtime 12 5
           (lit "a todo: 3")).
  reflexivity.
Defined.

(** A line number of twenty nines is read as the double 10^20, which is
    written with twenty-one digits: the context loses its first code
    unit. *)
Example line_number_beyond_2_53 :
  lineNumOf (RT := SmallRuntime.runtime)
    (lit "99999999999999999999:1:x todo")
  = Finite (10 ^ 20)
  /\ Number_toString (JSRuntime := SmallRuntime.runtime) (Finite (10 ^ 20))
     = lit "100000000000000000000"
  /\ contextOf (RT := SmallRuntime.runtime)
       (lit "99999999999999999999:1:x todo")
     = lit " todo".
Proof. vm_compute. auto. Qed.

(** ** Escaping *)

Lemma escapeRegExp_cons (c : N) (text : jsstring) :
  escapeRegExp (c :: text)
  = (if isRegExpSpecial c then [backslash; c] else [c]) ++ escapeRegExp text.
Proof. reflexivity. Qed.

(** X2. [escapeRegExp] loses nothing: two texts have the same escaped form
    only when they are the same text, and a text is left as it is exactly
    when it holds none of the special characters. *)
Theorem escapeRegExp_injective (a b : jsstring) :
  (escapeRegExp a = escapeRegExp b <-> a = b)
  /\ (escapeRegExp a = a <-> forall c, In c a -> isRegExpSpecial c = false).
Proof.
  split.
  - split; [| intros ->; reflexivity].
    revert b; induction a as [|x a IH]; intros [|y b].
    + reflexivity.
    + rewrite escapeRegExp_cons. destruct (isRegExpSpecial y); discriminate.
    + rewrite escapeRegExp_cons. destruct (isRegExpSpecial x); discriminate.
    + rewrite !escapeRegExp_cons.
      destruct (isRegExpSpecial x) eqn:Hx; destruct (isRegExpSpecial y) eqn:Hy;
        cbn [app]; intros E; inversion E; subst.
      * f_equal. apply IH. assumption.
      * assert (isRegExpSpecial backslash = true) by reflexivity. congruence.
      * assert (isRegExpSpecial backslash = true) by reflexivity. congruence.
      * f_equal. apply IH. assumption.
  - assert (Hlen : forall t, length t <= length (escapeRegExp t)).
    { induction t as [|x t IHt]; [reflexivity |].
      rewrite escapeRegExp_cons, length_app.
      destruct (isRegExpSpecial x); cbn [length]; lia. }
    induction a as [|x a IH].
    + split; [intros _ c [] | reflexivity].
    + rewrite escapeRegExp_cons.
      destruct (isRegExpSpecial x) eqn:Hx; cbn [app].
      * split.
        -- intros E. apply (f_equal (@length N)) in E. cbn [length] in E.
           specialize (Hlen a). lia.
        -- intros H. rewrite (H x (or_introl eq_refl)) in Hx. discriminate.
      * split.
        -- intros E. injection E as E'.
           intros c [<- | Hc]; [exact Hx |].
           apply (proj1 IH); assumption.
        -- intros H. f_equal. apply IH.
           intros c Hc. apply H. right. exact Hc.
Qed.

(** ** Paths *)

Lemma replaceAll1_no_backslash (s : jsstring) :
  ~ In backslash (replaceAll1 s backslash slash).
Proof.
  unfold replaceAll1. rewrite in_map_iff. intros [x [Hx _]].
  destruct (N.eqb x backslash) eqn:E; [discriminate |].
  apply N.eqb_neq in E. congruence.
Qed.

Lemma replaceAll1_without (s : jsstring) :
  ~ In backslash s -> replaceAll1 s backslash slash = s.
Proof.
  unfold replaceAll1. induction s as [|x s IH]; intros H; [reflexivity |].
  cbn [map]. destruct (N.eqb x backslash) eqn:E.
  - apply N.eqb_eq in E. exfalso. apply H. left. congruence.
  - f_equal. apply IH. intros Hin. apply H. right. exact Hin.
Qed.

Lemma In_skipn (A : Type) (x : A) (n : nat) (l : list A) :
  In x (skipn n l) -> In x l.
Proof.
  intros H. rewrite <- (firstn_skipn n l). apply in_or_app. right. exact H.
Qed.

Lemma normalizePath_no_backslash (path : jsstring) :
  ~ In backslash (normalizePath path).
Proof.
  unfold normalizePath, substringFrom. cbv zeta.
  destruct (startsWith _ _).
  - intros H. apply In_skipn in H.
    exact (replaceAll1_no_backslash path H).
  - apply replaceAll1_no_backslash.
Qed.

(** X3. A normalized path holds no backslash and is no longer than the
    path.  Only one leading [./] is dropped: normalizing again changes
    nothing exactly when the normalized path does not itself start with
    [./] (as it does for [././x]). *)
Theorem normalizePath_shape (path : jsstring) :
  ~ In backslash (normalizePath path)
  /\ length (normalizePath path) <= length path
  /\ (normalizePath (normalizePath path) = normalizePath path
      <-> startsWith (normalizePath path) (lit "./") = false)
  /\ normalizePath (lit "././x") = lit "./x".
Proof.
  split; [apply normalizePath_no_backslash |].
  split; [| split; [| reflexivity]].
  - unfold normalizePath, substringFrom, replaceAll1. cbv zeta.
    destruct (startsWith _ _).
    + rewrite length_skipn, length_map. lia.
    + rewrite length_map. lia.
  - pose proof (normalizePath_no_backslash path) as Hnb.
    set (q := normalizePath path) in *.
    unfold normalizePath at 1. cbv zeta.
    rewrite replaceAll1_without by exact Hnb.
    destruct (startsWith q (lit "./")) eqn:Hs.
    + split; [| discriminate]. intros E. exfalso.
      apply startsWith_spec in Hs. destruct Hs as [t Ht].
      unfold substringFrom in E. apply (f_equal (@length N)) in E.
      rewrite length_skipn, Ht in E. cbn [length lit app map] in E.
      simpl in E. lia.
    + split; reflexivity.
Qed.

(** ** The folder of a page *)

Lemma lastIndexOf_from_absent (s : jsstring) (c : N) (i found : Z) :
  ~ In c s -> lastIndexOf_from i s c found = found.
Proof.
  revert i found; induction s as [|x s IH]; intros i found H; [reflexivity |].
  cbn [lastIndexOf_from].
  destruct (N.eqb x c) eqn:E.
  - apply N.eqb_eq in E. exfalso. apply H. left. exact E.
  - apply IH. intros Hin. apply H. right. exact Hin.
Qed.

Lemma lastIndexOf_from_last (pre post : jsstring) (c : N) (i found : Z) :
  ~ In c post ->
  lastIndexOf_from i (pre ++ c :: post) c found
  = (i + Z.of_nat (length pre))%Z.
Proof.
  revert i found; induction pre as [|x pre IH]; intros i found H.
  - cbn [app lastIndexOf_from length]. rewrite N.eqb_refl.
    rewrite lastIndexOf_from_absent by exact H. lia.
  - cbn [app lastIndexOf_from]. rewrite IH by exact H.
    cbn [length]. lia.
Qed.

(** A string that holds [c] splits at the last [c]. *)
Lemma split_at_last (c : N) (s : jsstring) :
  In c s -> exists pre post, s = pre ++ c :: post /\ ~ In c post.
Proof.
  induction s as [|x s IH]; [intros [] |].
  intros H. destruct (in_dec N.eq_dec c s) as [Hin | Hout].
  - destruct (IH Hin) as [pre [post [-> Hp]]].
    exists (x :: pre), post. auto.
  - destruct H as [-> | Hin]; [| contradiction].
    exists [], s. auto.
Qed.

Lemma folderPathOf_root (pg : jsstring) :
  ~ In slash pg -> folderPathOf pg = [].
Proof.
  intros H. unfold folderPathOf, lastIndexOf.
  rewrite lastIndexOf_from_absent by exact H.
  change (Z.to_nat (-1 + 1)) with 0.
  rewrite substring_prefix by lia. reflexivity.
Qed.

Lemma firstn_through (dir base : jsstring) (c : N) :
  firstn (length dir + 1) (dir ++ c :: base) = dir ++ [c].
Proof.
  rewrite firstn_app.
  replace (length dir + 1 - length dir) with 1 by lia.
  rewrite firstn_all2 by lia. reflexivity.
Qed.

Lemma folderPathOf_nested (dir base : jsstring) :
  ~ In slash base -> folderPathOf (dir ++ slash :: base) = dir ++ [slash].
Proof.
  intros H. unfold folderPathOf, lastIndexOf.
  rewrite lastIndexOf_from_last by exact H.
  replace (Z.to_nat (0 + Z.of_nat (length dir) + 1)) with (length dir + 1)
    by lia.
  rewrite substring_prefix by (rewrite length_app; cbn [length]; lia).
  apply firstn_through.
Qed.

(** The folder path the filter compares is empty or ends in a slash. *)
Lemma normalized_folder_shape (pg : jsstring) :
  normalizePath (folderPathOf pg) = []
  \/ exists t, normalizePath (folderPathOf pg) = t ++ [slash].
Proof.
  destruct (in_dec N.eq_dec slash pg) as [Hin | Hout].
  2: { left. rewrite folderPathOf_root by exact Hout. reflexivity. }
  destruct (split_at_last _ _ Hin) as [dir [base [-> Hb]]].
  rewrite folderPathOf_nested by exact Hb.
  unfold normalizePath, replaceAll1, substringFrom. cbv zeta.
  rewrite map_app. cbn [map].
  change (if N.eqb slash backslash then slash else slash) with slash.
  set (d := map (fun x => if N.eqb x backslash then slash else x) dir).
  destruct (startsWith (d ++ [slash]) (lit "./")) eqn:Hs.
  - destruct d as [|x [|y t]].
    + discriminate.
    + left. reflexivity.
    + right. exists t. reflexivity.
  - right. exists d. reflexivity.
Qed.

(** X4. An ignore-pattern that, once normalized, is not empty, does not end
    in a slash and is no [/*] wildcard excludes no document at all: the
    folder path of a page is empty or ends in a slash, and such a pattern is
    only compared for equality.  ([archive] ignores nothing; [archive/] and
    [archive/*] do.) *)
Theorem pattern_without_slash_excludes_nothing
  (config : GrepConfig) (folders : list jsstring) (pg : jsstring) :
  ignoreFolders config = Some folders ->
  Forall
    (fun ignorePattern =>
       normalizePath ignorePattern <> []
       /\ endsWith (normalizePath ignorePattern) (lit "/") = false
       /\ endsWith (normalizePath ignorePattern) (lit "/*") = false)
    folders ->
  shouldIgnoreFolder (folderPathOf pg) config = false.
Proof.
  intros Hc Hall. unfold shouldIgnoreFolder. rewrite Hc.
  destruct (existsb _ folders) eqn:Hex; [| reflexivity].
  exfalso. apply existsb_exists in Hex. destruct Hex as [ip [Hin Hx]].
  rewrite Forall_forall in Hall.
  destruct (Hall ip Hin) as [Hne [Hslash Hwild]].
  rewrite Hwild in Hx. apply eqb_eq in Hx.
  destruct (normalized_folder_shape pg) as [He | [t Ht]].
  - congruence.
  - assert (endsWith (normalizePath ip) (lit "/") = true).
    { apply endsWith_spec. exists t. rewrite <- Hx, Ht. reflexivity. }
    congruence.
Qed.

Lemma pattern_without_slash_excludes_nothing_witness :
  shouldIgnoreFolder (folderPathOf (lit "archive/old"))
    (Sample.ignoring [lit "archive"]) = false.
Proof.
  apply (@pattern_without_slash_excludes_nothing
           (Sample.ignoring [lit "archive"]) [lit "archive"]
           (lit "archive/old")).
  - reflexivity.
  - constructor; [| constructor].
    split; [discriminate | split; reflexivity].
Defined.

(** X5. A document at the top level (its page name holds no slash) has the
    empty folder path: it is excluded exactly when some ignore-pattern
    normalizes to the empty string or to [/*]. *)
Theorem top_level_document_exclusion (config : GrepConfig) (pg : jsstring) :
  ~ In slash pg ->
  folderPathOf pg = []
  /\ (shouldIgnoreFolder (folderPathOf pg) config = true <->
      exists folders ignorePattern,
        ignoreFolders config = Some folders
        /\ In ignorePattern folders
        /\ (normalizePath ignorePattern = []
            \/ normalizePath ignorePattern = lit "/*")).
Proof.
  intros H. split; [apply folderPathOf_root; exact H |].
  rewrite folderPathOf_root by exact H.
  rewrite shouldIgnoreFolder_spec.
  change (normalizePath []) with (@nil N).
  split.
  - intros [folders [ip [Hc [Hin Hx]]]]. exists folders, ip.
    split; [exact Hc | split; [exact Hin |]].
    destruct Hx as [Hx | [base [rest [Hb Hr]]]].
    + left. congruence.
    + right. symmetry in Hr. apply app_eq_nil in Hr.
      destruct Hr as [-> _]. exact Hb.
  - intros [folders [ip [Hc [Hin Hx]]]]. exists folders, ip.
    split; [exact Hc | split; [exact Hin |]].
    destruct Hx as [Hx | Hx].
    + left. congruence.
    + right. exists [], []. auto.
Qed.

Lemma top_level_document_exclusion_witness :
  folderPathOf (lit "index") = []
  /\ (shouldIgnoreFolder (folderPathOf (lit "index"))
        (Sample.ignoring [lit "notes/*"; lit "./"]) = true <->
      exists folders ignorePattern,
        ignoreFolders (Sample.ignoring [lit "notes/*"; lit "./"])
          = Some folders
        /\ In ignorePattern folders
        /\ (normalizePath ignorePattern = []
            \/ normalizePath ignorePattern = lit "/*")).
Proof.
  apply (@top_level_document_exclusion
           (Sample.ignoring [lit "notes/*"; lit "./"]) (lit "index")).
  intros H. simpl in H.
  repeat (destruct H as [H | H]; [discriminate |]). exact H.
Defined.

(** ** The folder searched *)

Lemma folderOfPage_nested (dir base : jsstring) :
  ~ In slash base -> folderOfPage (dir ++ slash :: base) = dir ++ [slash].
Proof.
  intros H. unfold folderOfPage, sliceTo, lastIndexOf. cbv zeta.
  rewrite lastIndexOf_from_last by exact H.
  replace (Z.to_nat (0 + Z.of_nat (length dir) + 1)) with (length dir + 1)
    by lia.
  rewrite firstn_through.
  destruct dir; reflexivity.
Qed.

Lemma folderOfPage_root (pageName : jsstring) :
  ~ In slash pageName -> folderOfPage pageName = lit ".".
Proof.
  intros H. unfold folderOfPage, sliceTo, lastIndexOf. cbv zeta.
  rewrite lastIndexOf_from_absent by exact H. reflexivity.
Qed.

Lemma gitArgs_last {RT : JSRuntime} (config : GrepConfig) (a : GrepArgs) :
  last (gitArgs config a) []
  = folder a ++ (if endsWith (folder a) (lit "/") then [] else lit "/")
      ++ lit "*.md".
Proof.
  unfold gitArgs. destruct (caseSensitive config (pattern a)); reflexivity.
Qed.

(** X6. A search in the current folder looks at the documents directly in
    the folder of the current page: for a page [dir/base] the folder is
    [dir/] and [git] is given the path [dir/*.md]; for a page at the top
    level the folder is [.] and the path is [./*.md]. *)
Theorem in_folder_search_pathspec {RT : JSRuntime}
  (config : GrepConfig) (dir base pat : jsstring) (lit_ : bool) :
  ~ In slash base ->
  folderOfPage (dir ++ slash :: base) = dir ++ [slash]
  /\ last
       (gitArgs config
          {| pattern := pat; literal := lit_;
             folder := folderOfPage (dir ++ slash :: base) |}) []
     = dir ++ lit "/*.md"
  /\ folderOfPage base = lit "."
  /\ last
       (gitArgs config
          {| pattern := pat; literal := lit_; folder := folderOfPage base |})
       []
     = lit "./*.md".
Proof.
  intros H.
  rewrite !gitArgs_last. cbn [folder].
  rewrite folderOfPage_nested, folderOfPage_root by exact H.
  split; [reflexivity | split; [| split; reflexivity]].
  assert (He : endsWith (dir ++ [slash]) (lit "/") = true)
    by (apply endsWith_spec; exists dir; reflexivity).
  rewrite He, <- app_assoc. reflexivity.
Qed.

Lemma in_folder_search_pathspec_witness :
  folderOfPage (lit "notes/daily" ++ slash :: lit "today")
  = lit "notes/daily" ++ [slash]
  /\ last
       (gitArgs (RT := SmallRuntime.runtime) Sample.config0
          {| pattern := lit "todo"; literal := false;
             folder := folderOfPage (lit "notes/daily" ++ slash :: lit "today")
          |}) []
     = lit "notes/daily" ++ lit "/*.md"
  /\ folderOfPage (lit "today") = lit "."
  /\ last
       (gitArgs (RT := SmallRuntime.runtime) Sample.config0
          {| pattern := lit "todo"; literal := false;
             folder := folderOfPage (lit "today") |})
       []
     = lit "./*.md".
Proof.
  apply (@in_folder_search_pathspec SmallRuntime.runtime Sample.config0
           (lit "notes/daily") (lit "today") (lit "todo") false).
  intros H. simpl in H.
  repeat (destruct H as [H | H]; [discriminate |]). exact H.
Defined.

(** ** Opening and reading the results *)

Lemma renderReport_nonempty {RT : JSRuntime} (a : GrepArgs)
  (docs : list FileMatch) :
  exists u t, renderReport a docs = u :: t.
Proof. unfold renderReport. cbn. eauto. Qed.

Lemma grep_outcomes {RT : JSRuntime} (host : Host) (a : GrepArgs) :
  (exists u t, fst (grep host a) = Return (Some (u :: t)))
  \/ fst (grep host a) = Return None
  \/ fst (grep host a) = Throw.
Proof.
  unfold grep. destruct (grepFileMatches host a) as [[[docs|]|] notes].
  - left. destruct (renderReport_nonempty a docs) as [u [t E]].
    exists u, t. cbn [fst]. rewrite E. reflexivity.
  - right. left. reflexivity.
  - right. right. reflexivity.
Qed.

(** X7. With [saveResults] off, [openGrep] runs no search: it stores the
    arguments, shows the virtual page and flashes nothing.  Reading that
    page afterwards runs the search with exactly those arguments and serves
    its report; when the search reports nothing, it serves the text
    "Did not produce any results". *)
Theorem virtual_mode_open_then_read {RT : JSRuntime}
  (host : Host) (a : GrepArgs) (w : World) (nm : jsstring) :
  saveResultsOf (getSpaceConfig host) = false ->
  let w' := snd (openGrep host a w) in
  fst (openGrep host a w) = Return tt
  /\ stored w' = Some a
  /\ currentPage w' = resultPageVirtual
  /\ flashed w' = flashed w
  /\ (forall text,
        fst (grep host a) = Return (Some text) ->
        data (fst (readFileGrepResult host nm w')) = TextEncoder_encode text)
  /\ (fst (grep host a) = Return None ->
      data (fst (readFileGrepResult host nm w'))
      = TextEncoder_encode noResultsText)
  /\ flashed (snd (readFileGrepResult host nm w'))
     = flashed w ++ snd (grep host a).
Proof.
  intros Hs. cbv zeta. unfold openGrep. rewrite Hs. cbn [fst snd].
  split; [reflexivity | split; [reflexivity | split; [reflexivity |]]].
  split; [reflexivity |].
  unfold readFileGrepResult, grepResultText. cbn [stored navigate datastore_set].
  destruct (grep host a) as [c notes] eqn:Hg.
  pose proof (grep_outcomes host a) as Ho. rewrite Hg in Ho. cbn [fst] in Ho.
  cbn [fst snd].
  destruct Ho as [[u [t ->]] | [-> | ->]]; cbn [fst snd data flashed flash].
  - split; [| split; [discriminate | reflexivity]].
    intros text E. inversion E. reflexivity.
  - split; [discriminate | split; reflexivity].
  - split; [discriminate | split; [discriminate | reflexivity]].
Qed.

Lemma virtual_mode_open_then_read_witness :
  let host := Sample.hostOf Sample.config0 (ShellOk Sample.outputA) in
  let w' :=
    snd (openGrep (RT := SmallRuntime.runtime) host Sample.todo
           Sample.emptyWorld) in
  fst (openGrep (RT := SmallRuntime.runtime) host Sample.todo
         Sample.emptyWorld) = Return tt
  /\ stored w' = Some Sample.todo
  /\ currentPage w' = resultPageVirtual
  /\ flashed w' = flashed Sample.emptyWorld
  /\ (forall text,
        fst (grep (RT := SmallRuntime.runtime) host Sample.todo)
          = Return (Some text) ->
        data (fst (readFileGrepResult (RT := SmallRuntime.runtime) host
                     resultPageVirtual w'))
        = TextEncoder_encode text)
  /\ (fst (grep (RT := SmallRuntime.runtime) host Sample.todo) = Return None ->
      data (fst (readFileGrepResult (RT := SmallRuntime.runtime) host
                   resultPageVirtual w'))
      = TextEncoder_encode noResultsText)
  /\ flashed (snd (readFileGrepResult (RT := SmallRuntime.runtime) host
                     resultPageVirtual w'))
     = flashed Sample.emptyWorld
         ++ snd (grep (RT := SmallRuntime.runtime) host Sample.todo).
Proof.
  apply (@virtual_mode_open_then_read SmallRuntime.runtime
           (Sample.hostOf Sample.config0 (ShellOk Sample.outputA))
           Sample.todo Sample.emptyWorld resultPageVirtual).
  reflexivity.
Defined.

(** X8. With [saveResults] on, [openGrep] runs the search at once and never
    touches the stored arguments.  On a report it shows the page
    [GREP RESULT] and replaces the whole of its text, whatever it was, by
    [#meta], an empty line and the report.  When the search reports nothing
    the editor stays on its page with its text; when the search throws,
    [openGrep] throws. *)
Theorem saved_mode_outcomes {RT : JSRuntime}
  (host : Host) (a : GrepArgs) (w : World) :
  saveResultsOf (getSpaceConfig host) = true ->
  let w' := snd (openGrep host a w) in
  stored w' = stored w
  /\ flashed w' = flashed w ++ snd (grep host a)
  /\ (forall text,
        fst (grep host a) = Return (Some text) ->
        fst (openGrep host a w) = Return tt
        /\ currentPage w' = resultPageSaved
        /\ editorText w' = lit "#meta" ++ nl ++ nl ++ text)
  /\ (fst (grep host a) = Return None ->
      fst (openGrep host a w) = Return tt
      /\ currentPage w' = currentPage w
      /\ editorText w' = editorText w)
  /\ (fst (grep host a) = Throw -> fst (openGrep host a w) = Throw).
Proof.
  intros Hs. cbv zeta. unfold openGrep. rewrite Hs.
  destruct (grep host a) as [c notes] eqn:Hg.
  pose proof (grep_outcomes host a) as Ho. rewrite Hg in Ho. cbn [fst] in Ho.
  cbn [fst snd].
  destruct Ho as [[u [t ->]] | [-> | ->]];
    cbn [fst snd stored flashed currentPage editorText flash navigate
         replaceRange].
  - split; [reflexivity | split; [reflexivity | split; [| split]]];
      try discriminate.
    intros text E. inversion E.
    split; [reflexivity | split; [reflexivity |]].
    rewrite skipn_all. cbn [firstn]. rewrite app_nil_r. reflexivity.
  - split; [reflexivity | split; [reflexivity | split; [| split]]];
      try discriminate.
    intros _. auto.
  - split; [reflexivity | split; [reflexivity | split; [| split]]];
      try discriminate.
    reflexivity.
Qed.

Lemma saved_mode_outcomes_witness :
  let saving :=
    {| smartCase := None; surround := None; saveResults := Some true;
       ignoreFolders := None |} in
  let host :=
    {| getSpaceConfig := saving;
       shell_run := fun _ _ => ShellOk Sample.outputA;
       pageText := fun _ => lit "an older report" |} in
  let w' :=
    snd (openGrep (RT := SmallRuntime.runtime) host Sample.todo
           Sample.emptyWorld) in
  stored w' = stored Sample.emptyWorld
  /\ flashed w'
     = flashed Sample.emptyWorld
         ++ snd (grep (RT := SmallRuntime.runtime) host Sample.todo)
  /\ (forall text,
        fst (grep (RT := SmallRuntime.runtime) host Sample.todo)
          = Return (Some text) ->
        fst (openGrep (RT := SmallRuntime.runtime) host Sample.todo
               Sample.emptyWorld) = Return tt
        /\ currentPage w' = resultPageSaved
        /\ editorText w' = lit "#meta" ++ nl ++ nl ++ text)
  /\ (fst (grep (RT := SmallRuntime.runtime) host Sample.todo) = Return None ->
      fst (openGrep (RT := SmallRuntime.runtime) host Sample.todo
             Sample.emptyWorld) = Return tt
      /\ currentPage w' = currentPage Sample.emptyWorld
      /\ editorText w' = editorText Sample.emptyWorld)
  /\ (fst (grep (RT := SmallRuntime.runtime) host Sample.todo) = Throw ->
      fst (openGrep (RT := SmallRuntime.runtime) host Sample.todo
             Sample.emptyWorld) = Throw).
Proof.
  apply (@saved_mode_outcomes SmallRuntime.runtime
           {| getSpaceConfig :=
                {| smartCase := None; surround := None;
                   saveResults := Some true; ignoreFolders := None |};
              shell_run := fun _ _ => ShellOk Sample.outputA;
              pageText := fun _ => lit "an older report" |}
           Sample.todo Sample.emptyWorld).
  reflexivity.
Defined.

(** The older text of the result page is gone after a saved search. *)
Example saved_search_replaces_text :
  editorText
    (snd (openGrep (RT := SmallRuntime.runtime)
            {| getSpaceConfig :=
                 {| smartCase := None; surround := None;
                    saveResults := Some true; ignoreFolders := None |};
               shell_run := fun _ _ => ShellOk Sample.outputA;
               pageText := fun _ => lit "an older report" |}
            Sample.todo Sample.emptyWorld))
  = lit "#meta" ++ nl ++ nl
      ++ lit "Search results for text **`todo`**" ++ nl ++ nl
      ++ lit "## [[notes/a]] (1 match)" ++ nl
      ++ lit "* [[notes/a@L1C3|L1C3]]: a >>>todo<<< item" ++ nl
      ++ lit "    ".
Proof. vm_compute. reflexivity. Qed.

(** ** How many matches a line gives *)

Lemma Occurrences_count {RT : JSRuntime} (r : RegExp) (s : jsstring)
  (lastIndex : nat) (l : list (nat * nat)) :
  Occurrences r s lastIndex l -> length l <= S (length s) - lastIndex.
Proof.
  induction 1 as [i Hnone | i index e rest Hle He Hnone Hrest IH].
  - cbn [length]. lia.
  - pose proof (RegExp_matcher_end _ _ _ He) as Hb.
    cbn [length].
    destruct (Nat.eqb e index) eqn:Heq.
    + apply Nat.eqb_eq in Heq. lia.
    + apply Nat.eqb_neq in Heq. lia.
Qed.

(** X9. A context line of [n] code units gives at most [n + 1] matches,
    whatever the expression; an expression that matches the empty string
    reaches the bound, with one match at every offset from 0 to [n]. *)
Theorem matches_per_line_bounded {RT : JSRuntime}
  (config : GrepConfig) (innerRegex : RegExp) (ln : JSNumber)
  (ctx : jsstring) :
  length (refineContext config innerRegex ln ctx) <= length ctx + 1
  /\ ((forall j, j <= length ctx -> RegExp_matcher innerRegex ctx j = Some j) ->
      map columnNum (refineContext config innerRegex ln ctx)
      = seq 1 (length ctx + 1)).
Proof.
  split.
  - unfold refineContext. rewrite length_map.
    pose proof (Occurrences_count (matchAll_Occurrences innerRegex ctx)). lia.
  - intros Hall. unfold refineContext. rewrite map_map. cbn [columnNum].
    assert (Hgen : forall k i,
               i + k = length ctx + 1 ->
               Occurrences innerRegex ctx i (map (fun j => (j, j)) (seq i k))).
    { induction k as [|k IH]; intros i Hi.
      - constructor. intros j Hj. lia.
      - cbn [seq map]. constructor.
        + lia.
        + apply Hall. lia.
        + intros j Hj. lia.
        + rewrite Nat.eqb_refl. apply IH. lia. }
    rewrite (Occurrences_functional (matchAll_Occurrences innerRegex ctx)
               (Hgen (length ctx + 1) 0 eq_refl)).
    rewrite map_map. cbn [fst].
    rewrite <- seq_shift.
    apply map_ext. intros j. lia.
Qed.

(** The empty pattern of the small runtime on [ab]: columns 1, 2 and 3. *)
Example empty_pattern_matches_everywhere :
  map columnNum
    (refineContext (RT := SmallRuntime.runtime) Sample.config0
       {| SmallRuntime.units := []; SmallRuntime.ignoreCase := false |}
       (Finite 1) (lit "ab"))
  = [1; 2; 3].
Proof. vm_compute. reflexivity. Qed.

(** ** The size of the file served *)

Lemma utf8_length (cp : N) :
  1 <= length (utf8 cp)
  /\ ((0x10000 <= cp)%N -> length (utf8 cp) = 4)
  /\ ((cp < 0x80)%N -> utf8 cp = [cp]).
Proof.
  unfold utf8.
  destruct (N.ltb cp 0x80) eqn:H1; [| destruct (N.ltb cp 0x800) eqn:H2;
    [| destruct (N.ltb cp 0x10000) eqn:H3]];
    try apply N.ltb_lt in H1; try apply N.ltb_lt in H2;
    try apply N.ltb_lt in H3; try apply N.ltb_ge in H1;
    try apply N.ltb_ge in H2; try apply N.ltb_ge in H3;
    cbn [length]; repeat split; intros; try reflexivity; lia.
Qed.

Lemma encode_length_bounded (n : nat) (s : jsstring) :
  length s <= n -> length s <= length (TextEncoder_encode s).
Proof.
  unfold TextEncoder_encode.
  revert s; induction n as [|n IH]; intros s Hn.
  - destruct s; [reflexivity | cbn [length] in Hn; lia].
  - destruct s as [|c s]; [cbn; lia |].
    cbn [length] in Hn. cbn [codePoints].
    destruct (isHighSurrogate c).
    + destruct s as [|d s].
      * cbn. lia.
      * destruct (isLowSurrogate d).
        -- cbn [flat_map length]. rewrite length_app.
           cbn [length] in Hn.
           assert (Hs : length s <= length (flat_map utf8 (codePoints s)))
             by (apply IH; lia).
           destruct (utf8_length
                       (0x10000 + (c - 0xD800) * 0x400 + (d - 0xDC00))%N)
             as [_ [H4 _]].
           rewrite H4 by lia. lia.
        -- cbn [flat_map]. rewrite length_app.
           assert (Hs : length (d :: s)
                        <= length (flat_map utf8 (codePoints (d :: s))))
             by (apply IH; lia).
           destruct (utf8_length 0xFFFD%N) as [H1 _].
           cbn [length] in Hs |- *. lia.
    + assert (Hs : length s <= length (flat_map utf8 (codePoints s)))
        by (apply IH; lia).
      destruct (isLowSurrogate c); cbn [flat_map]; rewrite length_app.
      * destruct (utf8_length 0xFFFD%N) as [H1 _]. cbn [length]. lia.
      * destruct (utf8_length c) as [H1 _]. cbn [length]. lia.
Qed.

(** X10. The [size] that [readFileGrepResult] declares counts the UTF-16
    code units of the text, while [data] holds its UTF-8 bytes: the size
    never exceeds the number of bytes served, and it falls short as soon as
    the text is not plain ASCII.  The text served when nothing is stored
    names the virtual page with its magnifying glass, and is declared two
    bytes shorter than it is. *)
Theorem declared_size_counts_code_units {RT : JSRuntime}
  (host : Host) (nm : jsstring) (w : World) :
  let file := fst (readFileGrepResult host nm w) in
  (size (meta file) <= Z.of_nat (length (data file)))%Z
  /\ (stored w = None ->
      Z.of_nat (length (data file)) = (size (meta file) + 2)%Z).
Proof.
  cbv zeta. unfold readFileGrepResult.
  destruct (grepResultText host w) as [text notes] eqn:Ht.
  cbn [fst data meta size fileMetaOf].
  split.
  - apply inj_le. apply (encode_length_bounded (n := length text)). lia.
  - intros Hn. unfold grepResultText in Ht. rewrite Hn in Ht.
    inversion Ht. reflexivity.
Qed.

(** ** The version command *)

(** The first piece of [split] on line breaks is the text up to the first
    line break. *)
Lemma split_first_line (s cur : jsstring) :
  exists first rest,
    s = first ++ rest
    /\ Forall (fun c => c <> 10%N) first
    /\ (rest = [] \/ exists r, rest = 10%N :: r)
    /\ nth 0 (split_go nl 0 cur s) [] = rev cur ++ first.
Proof.
  revert cur; induction s as [|c s IH]; intros cur.
  - exists [], []. cbn. rewrite app_nil_r. auto.
  - cbn [split_go]. unfold nl at 1. cbn [startsWith].
    destruct (N.eqb c 10) eqn:Hc; cbn [andb].
    + apply N.eqb_eq in Hc. subst c.
      exists [], (10%N :: s). cbn [nth app].
      rewrite app_nil_r. split; [reflexivity | split; [constructor |]].
      split; [right; exists s; reflexivity | reflexivity].
    + apply N.eqb_neq in Hc.
      destruct (IH (c :: cur)) as [first [rest [Hs [Hf [Hr Hn]]]]].
      exists (c :: first), rest.
      split; [cbn [app]; congruence |].
      split; [constructor; assumption |].
      split; [exact Hr |].
      rewrite Hn. cbn [rev]. rewrite <- app_assoc. reflexivity.
Qed.

(** X11. When [git --version] runs, [showVersion] flashes one line, the
    plug's version followed by the first line of the output and nothing of
    what follows it; when the run fails or gives nothing, it flashes the
    error notification instead of throwing. *)
Theorem showVersion_first_line (host : Host) (stdout : jsstring) :
  shell_run host (lit "git") [lit "--version"] = ShellOk stdout ->
  exists first rest,
    stdout = first ++ rest
    /\ (rest = [] \/ exists r, rest = 10%N :: r)
    /\ showVersion host
       = {| message := lit "Grep Plug 2.3.0 " ++ first; type := None |}
    /\ Forall (fun c => c <> 10%N) (message (showVersion host)).
Proof.
  intros Hrun. unfold showVersion. rewrite Hrun.
  destruct (split_first_line stdout []) as [first [rest [Hs [Hf [Hr Hn]]]]].
  exists first, rest. unfold at_, split. rewrite Hn. cbn [rev app].
  split; [exact Hs | split; [exact Hr | split; [reflexivity |]]].
  cbn [message].
  change (lit "Grep Plug " ++ VERSION ++ lit " " ++ first)
    with (lit "Grep Plug 2.3.0 " ++ first).
  apply Forall_app. split; [| exact Hf].
  cbn. repeat constructor; discriminate.
Qed.

Lemma showVersion_first_line_witness :
  exists first rest,
    lit "git version 2.43.0" ++ nl ++ lit "more" = first ++ rest
    /\ (rest = [] \/ exists r, rest = 10%N :: r)
    /\ showVersion
         (Sample.hostOf Sample.config0
            (ShellOk (lit "git version 2.43.0" ++ nl ++ lit "more")))
       = {| message := lit "Grep Plug 2.3.0 " ++ first; type := None |}
    /\ Forall (fun c => c <> 10%N)
         (message
            (showVersion
               (Sample.hostOf Sample.config0
                  (ShellOk (lit "git version 2.43.0" ++ nl ++ lit "more"))))).
Proof.
  apply (@showVersion_first_line
           (Sample.hostOf Sample.config0
              (ShellOk (lit "git version 2.43.0" ++ nl ++ lit "more")))
           (lit "git version 2.43.0" ++ nl ++ lit "more")).
  reflexivity.
Defined.

Example showVersion_sample :
  showVersion
    (Sample.hostOf Sample.config0
       (ShellOk (lit "git version 2.43.0" ++ nl ++ lit "more")))
  = {| message := lit "Grep Plug 2.3.0 git version 2.43.0"; type := None |}
  /\ showVersion (Sample.hostOf Sample.config0 ShellThrows)
     = gitMissingNotification
  /\ showVersion (Sample.hostOf Sample.config0 ShellFalsy)
     = gitMissingNotification.
Proof. repeat split. Qed.
